(** * The Android low-memory killer of the MStar 4.9 kernel tree

    A shallow embedding of [lowmem_scan]
    (drivers/staging/android/lowmemorykiller.c) and the properties of its
    tier lookup, victim selection and kill cooldown.

    Conventions of the embedding.
    - C [int] and [long] values are integers of [Z]; every place where the
      source narrows an [unsigned long] counter to [int], or does [int]
      arithmetic, is written with the two's complement wrap [to_int]
      (the kernel is built with wrapping signed arithmetic).  [short]
      objects are only copied and compared in [lowmem_scan], so they are
      plain integers.
    - The conditional compilation of the source is a record of booleans,
      [kconfig]; every [#ifdef] branch of [lowmem_scan] is kept.
    - The process list walked by [for_each_process] is a list of
      [task_struct] snapshots; a task pointer is an index into that list.
    - Calls that leave the driver (signals, vendor CMA hooks) are recorded
      as a list of [event]s.  [lowmem_print], [trace_lowmemory_kill] and the
      CONFIG_MP_DEBUG_TOOL_MEMORY_USAGE_MONITOR counters only report values
      and are left out. *)

From Stdlib Require Import ZArith Lia Bool List.
From stdpp Require Import base list.
Import ListNotations.

Local Open Scope Z_scope.

(** ** Machine integers *)

(** Conversion to a 32-bit [int]. *)
Definition to_int (z : Z) : Z := (z + 2 ^ 31) mod 2 ^ 32 - 2 ^ 31.

Definition int_add (a b : Z) : Z := to_int (a + b).
Definition int_sub (a b : Z) : Z := to_int (a - b).

(** Conversions to [unsigned long] and [long], [w] being BITS_PER_LONG. *)
Definition to_ulong (w z : Z) : Z := z mod 2 ^ w.
Definition to_long (w z : Z) : Z := (z + 2 ^ (w - 1)) mod 2 ^ w - 2 ^ (w - 1).

(** [time_before_eq(a, b)] of linux/jiffies.h: [(long)((b) - (a)) >= 0]. *)
Definition time_before_eq (w a b : Z) : bool := 0 <=? to_long w (b - a).

(** ** Build configuration and constants from headers *)

(** The [CONFIG_*] switches tested by [lowmem_scan], and the constants it
    takes from kernel headers that are not part of this file:
    [BITS_PER_LONG], [HZ] (ticks per second) and [OOM_SCORE_ADJ_MAX]
    (include/uapi/linux/oom.h). *)
Record kconfig := {
  CONFIG_MP_Android_MSTAR_ADJUST_LOW_MEM_KILLER_POLICY : bool;
  CONFIG_CMA : bool;
  CONFIG_MP_CMA_PATCH_AGRESSIVE_KILL_PROCESS_TO_FREE_CMA_PAGE : bool;
  CONFIG_MP_CMA_PATCH_DELAY_FREE : bool;
  CONFIG_MP_MMA_ENABLE : bool;
  BITS_PER_LONG : Z;
  HZ : Z;
  OOM_SCORE_ADJ_MAX : Z
}.

(** ** Module parameters: the tier table *)

(** [lowmem_adj], [lowmem_minfree] and their element counts.  The arrays have
    six cells; a list shorter than six stands for an array whose remaining
    cells are zero, as static storage is. *)
Record lowmem_params := {
  lowmem_adj : list Z;
  lowmem_adj_size : Z;
  lowmem_minfree : list Z;
  lowmem_minfree_size : Z
}.

(** [ARRAY_SIZE(lowmem_adj)]. *)
Definition ARRAY_SIZE_lowmem_adj : Z := 6.

(** Array read [a[i]]. *)
Definition cell (a : list Z) (i : nat) : Z := default 0 (a !! i).

(** The initialisers of the source. *)
Definition lowmem_params_init : lowmem_params := {|
  lowmem_adj := [0; 1; 6; 12];
  lowmem_adj_size := 4;
  lowmem_minfree := [3 * 512; 2 * 1024; 4 * 1024; 16 * 1024];
  lowmem_minfree_size := 4
|}.

(** ** Inputs of one pass *)

(** The page counters read by [lowmem_scan] ([unsigned long] values), and
    whether the allocation that triggered the shrinker is movable. *)
Record vmstat := {
  NR_FREE_PAGES : Z;
  totalreserve_pages : Z;
  NR_FILE_PAGES : Z;
  NR_SHMEM : Z;
  NR_UNEVICTABLE : Z;
  total_swapcache_pages : Z;
  NR_ACTIVE_FILE : Z;
  NR_INACTIVE_FILE : Z;
  NR_FREE_CMA_PAGES : Z;
  total_ion_system_pages : Z;
  (* gfpflags_to_migratetype(sc->gfp_mask) == MIGRATE_MOVABLE *)
  gfp_movable : bool
}.

(** One entry of the process list, as the scan sees it: [tsk] together with
    the thread [p] that [find_lock_task_mm(tsk)] returns. *)
Record task_struct := {
  pid : Z;
  PF_KTHREAD : bool;        (* tsk->flags & PF_KTHREAD *)
  has_mm : bool;            (* find_lock_task_mm(tsk) != NULL *)
  lmk_waiting : bool;       (* task_lmk_waiting(p) *)
  oom_score_adj : Z;        (* p->signal->oom_score_adj *)
  mm_rss : Z                (* get_mm_rss(p->mm) *)
}.

(** [task_set_lmk_waiting(p)]. *)
Definition task_set_lmk_waiting (p : task_struct) : task_struct :=
  {| pid := pid p; PF_KTHREAD := PF_KTHREAD p; has_mm := has_mm p;
     lmk_waiting := true; oom_score_adj := oom_score_adj p;
     mm_rss := mm_rss p |}.

(** What the driver owns or changes: the process list (for the
    lmk-waiting flags) and [lowmem_deathpending_timeout]. *)
Record kstate := {
  tasks : list task_struct;
  lowmem_deathpending_timeout : Z
}.

(** Calls that leave the driver. *)
Inductive event :=
| set_early_kill_oom_adj_threshold (adj : Z)
| set_delay_free_min_mem (min_mem : Z)
| send_sig_SIGKILL (p : nat).

(** ** The tier loop (lines 161-177) *)

(** The locals the loop works on. *)
Record tier_state := {
  t_i : nat;
  t_minfree : Z;
  t_total_free : Z;
  t_min_score_adj : Z
}.

Definition array_size (P : lowmem_params) : Z :=
  let array_size := ARRAY_SIZE_lowmem_adj in
  let array_size :=
    if lowmem_adj_size P <? array_size then lowmem_adj_size P else array_size in
  let array_size :=
    if lowmem_minfree_size P <? array_size then lowmem_minfree_size P
    else array_size in
  array_size.

(** [n] is the number of iterations left, [array_size - i]. *)
Fixpoint tier_loop (K : kconfig) (P : lowmem_params)
    (other_free free_cma other_file active_file : Z)
    (n : nat) (s : tier_state) : tier_state :=
  match n with
  | O => s
  | S n' =>
      let i := t_i s in
      let minfree := cell (lowmem_minfree P) i in
      if CONFIG_MP_Android_MSTAR_ADJUST_LOW_MEM_KILLER_POLICY K then
        let total_free :=
          if cell (lowmem_adj P) i =? 0
          then int_add (t_total_free s) active_file
          else t_total_free s in
        if total_free <? minfree then
          {| t_i := i; t_minfree := minfree; t_total_free := total_free;
             t_min_score_adj := cell (lowmem_adj P) i |}
        else
          tier_loop K P other_free free_cma other_file active_file n'
            {| t_i := S i; t_minfree := minfree; t_total_free := total_free;
               t_min_score_adj := t_min_score_adj s |}
      else
        if (int_sub other_free free_cma <? minfree) && (other_file <? minfree)
        then
          {| t_i := i; t_minfree := minfree; t_total_free := t_total_free s;
             t_min_score_adj := cell (lowmem_adj P) i |}
        else
          tier_loop K P other_free free_cma other_file active_file n'
            {| t_i := S i; t_minfree := minfree;
               t_total_free := t_total_free s;
               t_min_score_adj := t_min_score_adj s |}
  end.

(** The values computed before the loop (lines 115-159).  The differences
    are taken on [unsigned long] counters and stored in an [int]; the
    narrowing forgets the width of [long] (lemma [to_int_of_ulong] below),
    so only the wrap to [int] is written. *)
Definition other_free_of (vm : vmstat) : Z :=
  to_int (NR_FREE_PAGES vm - totalreserve_pages vm).

Definition other_file_of (vm : vmstat) : Z :=
  to_int (NR_FILE_PAGES vm - NR_SHMEM vm - NR_UNEVICTABLE vm
          - total_swapcache_pages vm).

Definition active_file_of (vm : vmstat) : Z := to_int (NR_ACTIVE_FILE vm).

Definition free_cma_of (K : kconfig) (vm : vmstat) : Z :=
  if CONFIG_CMA K && negb (gfp_movable vm)
  then to_int (NR_FREE_CMA_PAGES vm) else 0.

(** [total_free] as it stands when the loop is entered. *)
Definition total_free_of (K : kconfig) (vm : vmstat) : Z :=
  if CONFIG_MP_Android_MSTAR_ADJUST_LOW_MEM_KILLER_POLICY K then
    let total_free :=
      int_add (int_sub (other_free_of vm) (free_cma_of K vm))
              (int_sub (other_file_of vm) (active_file_of vm)) in
    if CONFIG_MP_MMA_ENABLE K
    then int_add total_free (to_int (total_ion_system_pages vm))
    else total_free
  else 0.

(** The loop run from its initial locals. *)
Definition tier_walk (K : kconfig) (P : lowmem_params) (vm : vmstat)
    : tier_state :=
  tier_loop K P (other_free_of vm) (free_cma_of K vm) (other_file_of vm)
    (active_file_of vm) (Z.to_nat (array_size P))
    {| t_i := O; t_minfree := 0; t_total_free := total_free_of K vm;
       t_min_score_adj := OOM_SCORE_ADJ_MAX K + 1 |}.

(** ** The process scan (lines 204-249) *)

(** The locals of the scan: [selected] (a task pointer or NULL) and the
    figures of the task it points to. *)
Record sel_state := {
  selected : option nat;
  selected_tasksize : Z;
  selected_oom_score_adj : Z
}.

(** [tasksize = get_mm_rss(p->mm)], assigned to an [int]. *)
Definition tasksize_of (p : task_struct) : Z := to_int (mm_rss p).

(** The body of [for_each_process]; [idx] is the position of the head of
    [ts] in the process list.  [None] is the early [return 0] of line 226. *)
Fixpoint scan_tasks (K : kconfig) (jiffies timeout min_score_adj : Z)
    (idx : nat) (ts : list task_struct) (s : sel_state) : option sel_state :=
  match ts with
  | [] => Some s
  | p :: rest =>
      let continue := scan_tasks K jiffies timeout min_score_adj (S idx) rest in
      if PF_KTHREAD p then continue s
      else if negb (has_mm p) then continue s
      else if lmk_waiting p
              && time_before_eq (BITS_PER_LONG K) jiffies timeout then None
      else
        let oom_score_adj := oom_score_adj p in
        if oom_score_adj <? min_score_adj then continue s
        else
          let tasksize := tasksize_of p in
          if tasksize <=? 0 then continue s
          else if bool_decide (is_Some (selected s))
                  && (oom_score_adj <? selected_oom_score_adj s)
          then continue s
          else if bool_decide (is_Some (selected s))
                  && (oom_score_adj =? selected_oom_score_adj s)
                  && (tasksize <=? selected_tasksize s)
          then continue s
          else continue {| selected := Some idx;
                           selected_tasksize := tasksize;
                           selected_oom_score_adj := oom_score_adj |}
  end.

(** ** [lowmem_scan] *)

(** The vendor hooks called under CONFIG_CMA (lines 140-148). *)
Definition cma_hooks (K : kconfig) (P : lowmem_params) : list event :=
  if CONFIG_CMA K then
    (if CONFIG_MP_CMA_PATCH_AGRESSIVE_KILL_PROCESS_TO_FREE_CMA_PAGE K
        && negb (cell (lowmem_adj P) 4 =? 0)
     then [set_early_kill_oom_adj_threshold (cell (lowmem_adj P) 4)] else [])
    ++
    (if CONFIG_MP_CMA_PATCH_DELAY_FREE K
        && negb (cell (lowmem_minfree P) 5 =? 0)
     then [set_delay_free_min_mem (cell (lowmem_minfree P) 5)] else [])
  else [].

(** What one call returns and leaves behind. *)
Record scan_out := {
  rem : Z;
  after : kstate;
  events : list event
}.

Definition lowmem_scan (K : kconfig) (P : lowmem_params) (vm : vmstat)
    (jiffies : Z) (st : kstate) : scan_out :=
  let hooks := cma_hooks K P in
  let min_score_adj := t_min_score_adj (tier_walk K P vm) in
  if min_score_adj =? OOM_SCORE_ADJ_MAX K + 1 then
    {| rem := 0; after := st; events := hooks |}
  else
    match scan_tasks K jiffies (lowmem_deathpending_timeout st) min_score_adj
            O (tasks st)
            {| selected := None; selected_tasksize := 0;
               selected_oom_score_adj := min_score_adj |} with
    | None => {| rem := 0; after := st; events := hooks |}
    | Some s =>
        match selected s with
        | Some sel =>
            {| rem := to_ulong (BITS_PER_LONG K) (0 + selected_tasksize s);
               after :=
                 {| tasks :=
                      match tasks st !! sel with
                      | Some p =>
                          if has_mm p
                          then <[sel := task_set_lmk_waiting p]> (tasks st)
                          else tasks st
                      | None => tasks st
                      end;
                    lowmem_deathpending_timeout :=
                      to_ulong (BITS_PER_LONG K) (jiffies + HZ K) |};
               events := hooks ++ [send_sig_SIGKILL sel] |}
        | None => {| rem := 0; after := st; events := hooks |}
        end
    end.

(** ** Notions the properties are stated with *)

(** The filters of the scan (lines 211-236) as one predicate: [p] can be
    selected under the cutoff [min_score_adj]. *)
Definition eligible (min_score_adj : Z) (p : task_struct) : bool :=
  negb (PF_KTHREAD p) && has_mm p
  && (min_score_adj <=? oom_score_adj p) && (0 <? tasksize_of p).

(** [p] is seen by the scan with its exit-requested flag set. *)
Definition waiting_candidate (p : task_struct) : bool :=
  negb (PF_KTHREAD p) && has_mm p && lmk_waiting p.

(** The order of the selection: [q] loses to [p] / does not beat [p]. *)
Definition worse (q p : task_struct) : Prop :=
  oom_score_adj q < oom_score_adj p
  \/ (oom_score_adj q = oom_score_adj p /\ tasksize_of q < tasksize_of p).

Definition not_better (q p : task_struct) : Prop :=
  oom_score_adj q < oom_score_adj p
  \/ (oom_score_adj q = oom_score_adj p /\ tasksize_of q <= tasksize_of p).

(** The locals of the scan when the walk over the processes starts
    (lines 111, 117 and 204). *)
Definition sel_init (min_score_adj : Z) : sel_state :=
  {| selected := None; selected_tasksize := 0;
     selected_oom_score_adj := min_score_adj |}.

(** The replacement rule of lines 237-243: an eligible task [p] becomes the
    selected one when nothing is selected yet, when its priority value is
    strictly higher, or when it is equal and its size strictly larger. *)
Definition replaces (s : sel_state) (p : task_struct) : bool :=
  match selected s with
  | None => true
  | Some _ =>
      (selected_oom_score_adj s <? oom_score_adj p)
      || ((selected_oom_score_adj s =? oom_score_adj p)
          && (selected_tasksize s <? tasksize_of p))
  end.

(** [s] holds a best eligible task among the first [bound] of [all]: it
    strictly beats every eligible task before it and is not beaten by any
    eligible task after it. *)
Definition best_of (all : list task_struct) (c : Z) (bound : nat)
    (s : sel_state) : Prop :=
  match selected s with
  | None =>
      forall (j : nat) (q : task_struct),
        (j < bound)%nat -> all !! j = Some q -> eligible c q = false
  | Some i =>
      (i < bound)%nat
      /\ exists p : task_struct,
          all !! i = Some p /\ eligible c p = true
          /\ selected_tasksize s = tasksize_of p
          /\ selected_oom_score_adj s = oom_score_adj p
          /\ forall (j : nat) (q : task_struct),
              (j < bound)%nat -> all !! j = Some q -> eligible c q = true ->
              ((j < i)%nat -> worse q p) /\ ((i < j)%nat -> not_better q p)
  end.

(** The process list with every exit-requested flag cleared. *)
Definition clear_lmk_waiting (p : task_struct) : task_struct :=
  {| pid := pid p; PF_KTHREAD := PF_KTHREAD p; has_mm := has_mm p;
     lmk_waiting := false; oom_score_adj := oom_score_adj p;
     mm_rss := mm_rss p |}.

Definition clear_flags (st : kstate) : kstate :=
  {| tasks := map clear_lmk_waiting (tasks st);
     lowmem_deathpending_timeout := lowmem_deathpending_timeout st |}.

(** A kill was dispatched by the pass. *)
Definition dispatched (o : scan_out) : Prop :=
  exists sel, In (send_sig_SIGKILL sel) (events o).

(** Number of cells [j < i] of [adj] that hold priority 0. *)
Fixpoint zero_adj_count (adj : list Z) (i : nat) : Z :=
  match i with
  | O => 0
  | S j => zero_adj_count adj j + (if cell adj j =? 0 then 1 else 0)
  end.

(** The quantity entry [i] of the table is compared with.  Without the
    vendor policy an entry fires when both [other_free - free_cma] and
    [other_file] are below its threshold, that is when their maximum is.
    With the vendor policy it is [total_free], to which [active_file] has
    been added once for every entry of priority 0 met so far. *)
Definition eff_free (K : kconfig) (P : lowmem_params) (vm : vmstat)
    (i : nat) : Z :=
  if CONFIG_MP_Android_MSTAR_ADJUST_LOW_MEM_KILLER_POLICY K then
    to_int (total_free_of K vm
            + active_file_of vm * zero_adj_count (lowmem_adj P) (S i))
  else
    Z.max (int_sub (other_free_of vm) (free_cma_of K vm)) (other_file_of vm).

(** The lookup as the specification words it (section 4.1), following the
    specification and not the code: among the first [n] entries from [i] on,
    the priority of the first one whose threshold strictly exceeds the free
    quantity, the sentinel when there is none.  [free_units] gives the
    quantity per entry; the specification has one quantity for all. *)
Fixpoint spec_lookup_from (adj minfree : list Z) (sentinel : Z)
    (free_units : nat -> Z) (n i : nat) : Z :=
  match n with
  | O => sentinel
  | S n' =>
      if free_units i <? cell minfree i then cell adj i
      else spec_lookup_from adj minfree sentinel free_units n' (S i)
  end.

Definition TierTable_lookup_at (K : kconfig) (P : lowmem_params)
    (free_units : nat -> Z) : Z :=
  spec_lookup_from (lowmem_adj P) (lowmem_minfree P) (OOM_SCORE_ADJ_MAX K + 1)
    free_units (Z.to_nat (array_size P)) O.

Definition TierTable_lookup (K : kconfig) (P : lowmem_params)
    (free_units : Z) : Z :=
  TierTable_lookup_at K P (fun _ => free_units).

(** The loop invariant of the vendor policy: on entry to iteration [t_i s]
    the local [total_free] holds its initial value plus [active_file] for
    every priority-0 entry already passed. *)
Definition tier_inv (K : kconfig) (P : lowmem_params) (vm : vmstat)
    (s : tier_state) : Prop :=
  CONFIG_MP_Android_MSTAR_ADJUST_LOW_MEM_KILLER_POLICY K = true ->
  t_total_free s
  = to_int (total_free_of K vm
            + active_file_of vm * zero_adj_count (lowmem_adj P) (t_i s)).

(** The loop of [lowmem_scan] on the locals [s], [n] iterations left. *)
Definition tier_run (K : kconfig) (P : lowmem_params) (vm : vmstat)
    (n : nat) (s : tier_state) : tier_state :=
  tier_loop K P (other_free_of vm) (free_cma_of K vm) (other_file_of vm)
    (active_file_of vm) n s.

(** ** Concrete builds, tables and tasks used in the examples *)

(** A 64-bit build with the tick rate 250 and neither vendor policy nor CMA. *)
Definition K_plain : kconfig := {|
  CONFIG_MP_Android_MSTAR_ADJUST_LOW_MEM_KILLER_POLICY := false;
  CONFIG_CMA := false;
  CONFIG_MP_CMA_PATCH_AGRESSIVE_KILL_PROCESS_TO_FREE_CMA_PAGE := false;
  CONFIG_MP_CMA_PATCH_DELAY_FREE := false;
  CONFIG_MP_MMA_ENABLE := false;
  BITS_PER_LONG := 64;
  HZ := 250;
  OOM_SCORE_ADJ_MAX := 1000
|}.

(** A 32-bit build with every vendor switch on. *)
Definition K_mstar : kconfig := {|
  CONFIG_MP_Android_MSTAR_ADJUST_LOW_MEM_KILLER_POLICY := true;
  CONFIG_CMA := true;
  CONFIG_MP_CMA_PATCH_AGRESSIVE_KILL_PROCESS_TO_FREE_CMA_PAGE := true;
  CONFIG_MP_CMA_PATCH_DELAY_FREE := true;
  CONFIG_MP_MMA_ENABLE := true;
  BITS_PER_LONG := 32;
  HZ := 100;
  OOM_SCORE_ADJ_MAX := 1000
|}.

(** A reading with [free] free pages and [cache] file pages, nothing else. *)
Definition reading (free cache : Z) : vmstat := {|
  NR_FREE_PAGES := free; totalreserve_pages := 0;
  NR_FILE_PAGES := cache; NR_SHMEM := 0; NR_UNEVICTABLE := 0;
  total_swapcache_pages := 0; NR_ACTIVE_FILE := 0; NR_INACTIVE_FILE := cache;
  NR_FREE_CMA_PAGES := 0; total_ion_system_pages := 0; gfp_movable := true
|}.

(** The same with [active] of the file pages on the active list. *)
Definition reading_active (free cache active : Z) : vmstat := {|
  NR_FREE_PAGES := free; totalreserve_pages := 0;
  NR_FILE_PAGES := cache; NR_SHMEM := 0; NR_UNEVICTABLE := 0;
  total_swapcache_pages := 0; NR_ACTIVE_FILE := active;
  NR_INACTIVE_FILE := cache - active;
  NR_FREE_CMA_PAGES := 0; total_ion_system_pages := 0; gfp_movable := true
|}.

Definition table (adj minfree : list Z) : lowmem_params := {|
  lowmem_adj := adj; lowmem_adj_size := Z.of_nat (length adj);
  lowmem_minfree := minfree; lowmem_minfree_size := Z.of_nat (length minfree)
|}.

Definition user_task (id adj rss : Z) (waiting : bool) : task_struct := {|
  pid := id; PF_KTHREAD := false; has_mm := true; lmk_waiting := waiting;
  oom_score_adj := adj; mm_rss := rss
|}.

Definition table_AB : lowmem_params := table [0; 8] [1024; 4096].

(** ** The autodetection of legacy [oom_adj] tables (lines 309-347) *)

(** Compiled under CONFIG_ANDROID_LOW_MEMORY_KILLER_AUTODETECT_OOM_ADJ_VALUES
    and run after every write to the [adj] parameter. *)

(** Conversion to a 16-bit [short]. *)
Definition to_short (z : Z) : Z := (z + 2 ^ 15) mod 2 ^ 16 - 2 ^ 15.

(** The constants of include/uapi/linux/oom.h used by the conversion, which
    is not part of this file ([OOM_SCORE_ADJ_MAX] is in [kconfig]). *)
Record oom_h := {
  OOM_ADJUST_MAX : Z;
  OOM_DISABLE : Z
}.

(** The values the header gives them. *)
Definition linux_oom_h (K : kconfig) (C : oom_h) : Prop :=
  OOM_ADJUST_MAX C = 15 /\ OOM_DISABLE C = -17 /\ OOM_SCORE_ADJ_MAX K = 1000.

(** [lowmem_oom_adj_to_oom_score_adj]: the product and the quotient are
    taken on [int] (the quotient truncates towards zero) and the result is
    returned as a [short]. *)
Definition lowmem_oom_adj_to_oom_score_adj (K : kconfig) (C : oom_h)
    (oom_adj : Z) : Z :=
  if oom_adj =? OOM_ADJUST_MAX C then to_short (OOM_SCORE_ADJ_MAX K)
  else to_short (Z.quot (to_int (oom_adj * OOM_SCORE_ADJ_MAX K))
                        (to_int (- OOM_DISABLE C))).

(** Array write [a[i] = v], on a list that stands for an array whose cells
    beyond the list are zero. *)
Fixpoint cell_set (a : list Z) (i : nat) (v : Z) : list Z :=
  match i, a with
  | O, [] => [v]
  | O, _ :: rest => v :: rest
  | S j, [] => 0 :: cell_set [] j v
  | S j, x :: rest => x :: cell_set rest j v
  end.

(** The converting loop of lines 340-346, [n] iterations left at index
    [i]. *)
Fixpoint autodetect_loop (K : kconfig) (C : oom_h) (n i : nat)
    (adj : list Z) : list Z :=
  match n with
  | O => adj
  | S n' =>
      let oom_adj := cell adj i in
      let oom_score_adj := lowmem_oom_adj_to_oom_score_adj K C oom_adj in
      autodetect_loop K C n' (S i) (cell_set adj i oom_score_adj)
  end.

(** The number of entries [lowmem_autodetect_oom_adj_values] works on. *)
Definition autodetect_size (P : lowmem_params) : Z :=
  if lowmem_adj_size P <? ARRAY_SIZE_lowmem_adj then lowmem_adj_size P
  else ARRAY_SIZE_lowmem_adj.

Definition lowmem_autodetect_oom_adj_values (K : kconfig) (C : oom_h)
    (P : lowmem_params) : lowmem_params :=
  let array_size := autodetect_size P in
  if array_size <=? 0 then P
  else
    let oom_adj := cell (lowmem_adj P) (Z.to_nat (array_size - 1)) in
    if OOM_ADJUST_MAX C <? oom_adj then P
    else
      let oom_score_adj := lowmem_oom_adj_to_oom_score_adj K C oom_adj in
      if oom_score_adj <=? OOM_ADJUST_MAX C then P
      else
        {| lowmem_adj :=
             autodetect_loop K C (Z.to_nat array_size) O (lowmem_adj P);
           lowmem_adj_size := lowmem_adj_size P;
           lowmem_minfree := lowmem_minfree P;
           lowmem_minfree_size := lowmem_minfree_size P |}.

(** The constants of the kernel header. *)
Definition C_linux : oom_h := {| OOM_ADJUST_MAX := 15; OOM_DISABLE := -17 |}.

(** ** The first-match rule with one quantity *)

(** The lookup rule with one effectively-free quantity [q] for the whole
    table, as a statement about the code: the cutoff is the priority of the
    first entry whose threshold strictly exceeds [q]; when no threshold
    exceeds [q] the cutoff is the sentinel and a pass returns 0, kills
    nothing and changes nothing. *)
Definition first_match_at (K : kconfig) (P : lowmem_params) (vm : vmstat)
    (q : Z) : Prop :=
  let n := Z.to_nat (array_size P) in
  let r := tier_walk K P vm in
  (forall i : nat,
      (i < n)%nat ->
      q < cell (lowmem_minfree P) i ->
      (forall j : nat, (j < i)%nat -> cell (lowmem_minfree P) j <= q) ->
      t_min_score_adj r = cell (lowmem_adj P) i)
  /\ ((forall j : nat, (j < n)%nat -> cell (lowmem_minfree P) j <= q) ->
      t_min_score_adj r = OOM_SCORE_ADJ_MAX K + 1
      /\ forall (jiffies : Z) (st : kstate),
          let o := lowmem_scan K P vm jiffies st in
          rem o = 0 /\ after o = st /\ ~ dispatched o).

(** A reading with [free] free pages of which [reserved] are reserved, and
    no file pages. *)
Definition reading_reserved (free reserved : Z) : vmstat := {|
  NR_FREE_PAGES := free; totalreserve_pages := reserved;
  NR_FILE_PAGES := 0; NR_SHMEM := 0; NR_UNEVICTABLE := 0;
  total_swapcache_pages := 0; NR_ACTIVE_FILE := 0; NR_INACTIVE_FILE := 0;
  NR_FREE_CMA_PAGES := 0; total_ion_system_pages := 0; gfp_movable := true
|}.

(** A reading for an allocation that is not movable, with [free] free pages
    of which [cma] are free CMA pages, and no file pages. *)
Definition reading_cma (free cma : Z) : vmstat := {|
  NR_FREE_PAGES := free; totalreserve_pages := 0;
  NR_FILE_PAGES := 0; NR_SHMEM := 0; NR_UNEVICTABLE := 0;
  total_swapcache_pages := 0; NR_ACTIVE_FILE := 0; NR_INACTIVE_FILE := 0;
  NR_FREE_CMA_PAGES := cma; total_ion_system_pages := 0; gfp_movable := false
|}.

(** * Properties *)

(** ** The scenarios of the specification, run on the code *)

Example scenario_A :
  t_min_score_adj (tier_walk K_plain table_AB (reading 900 0)) = 0
  /\ t_min_score_adj (tier_walk K_mstar table_AB (reading 900 0)) = 0.
Proof. split; reflexivity. Qed.

Example scenario_B :
  t_min_score_adj (tier_walk K_plain table_AB (reading 2000 0)) = 8
  /\ t_min_score_adj (tier_walk K_mstar table_AB (reading 2000 0)) = 8.
Proof. split; reflexivity. Qed.

Example scenario_C :
  forall st, lowmem_scan K_plain table_AB (reading 5000 0) 7 st
             = {| rem := 0; after := st; events := [] |}.
Proof. reflexivity. Qed.

Example scenario_D :
  let st := {| tasks := [user_task 1 8 100 false; user_task 2 8 500 false];
               lowmem_deathpending_timeout := 0 |} in
  let o := lowmem_scan K_plain table_AB (reading 2000 0) 7 st in
  rem o = 500 /\ events o = [send_sig_SIGKILL 1%nat]
  /\ lowmem_deathpending_timeout (after o) = 257
  /\ tasks (after o) = [user_task 1 8 100 false; user_task 2 8 500 true].
Proof. vm_compute. repeat split; reflexivity. Qed.

Example scenario_E :
  let st := {| tasks := [user_task 1 8 100 true; user_task 2 8 500 false];
               lowmem_deathpending_timeout := 257 |} in
  lowmem_scan K_plain table_AB (reading 900 0) 257 st
  = {| rem := 0; after := st; events := [] |}.
Proof. vm_compute. reflexivity. Qed.

(** ** Machine integers *)

Lemma to_int_range (z : Z) : - 2 ^ 31 <= to_int z < 2 ^ 31.
Proof.
  unfold to_int.
  pose proof (Z.mod_pos_bound (z + 2 ^ 31) (2 ^ 32) ltac:(lia)). lia.
Qed.

Lemma to_int_small (z : Z) : - 2 ^ 31 <= z < 2 ^ 31 -> to_int z = z.
Proof.
  intros Hz. unfold to_int. rewrite Z.mod_small; lia.
Qed.

Lemma to_int_add_l (a b : Z) : to_int (to_int a + b) = to_int (a + b).
Proof.
  unfold to_int.
  replace ((a + 2 ^ 31) mod 2 ^ 32 - 2 ^ 31 + b + 2 ^ 31)
    with ((a + 2 ^ 31) mod 2 ^ 32 + b) by lia.
  rewrite Zplus_mod_idemp_l. f_equal. f_equal. lia.
Qed.

(** Narrowing an [unsigned long] to [int] forgets the width of [long]. *)
Lemma to_int_of_ulong (w z : Z) : 32 <= w -> to_int (to_ulong w z) = to_int z.
Proof.
  intros Hw. unfold to_int, to_ulong.
  assert (Hdiv : 2 ^ w = 2 ^ 32 * 2 ^ (w - 32)).
  { rewrite <- Z.pow_add_r by lia. f_equal. lia. }
  assert (Hpos : 0 < 2 ^ (w - 32)) by (apply Z.pow_pos_nonneg; lia).
  pose proof (Z.div_mod z (2 ^ w) ltac:(lia)) as Hz.
  replace (z mod 2 ^ w + 2 ^ 31)
    with (z + 2 ^ 31 + - (2 ^ (w - 32) * (z / 2 ^ w)) * 2 ^ 32) by nia.
  rewrite Z_mod_plus_full. reflexivity.
Qed.

Lemma to_ulong_small (w z : Z) : 0 <= z < 2 ^ w -> to_ulong w z = z.
Proof. intros Hz. unfold to_ulong. apply Z.mod_small. exact Hz. Qed.

Lemma to_long_small (w z : Z) :
  - 2 ^ (w - 1) <= z < 2 ^ (w - 1) -> 0 < w -> to_long w z = z.
Proof.
  intros Hz Hw. unfold to_long.
  assert (H2 : 2 ^ w = 2 * 2 ^ (w - 1)).
  { replace w with (1 + (w - 1)) at 1 by lia.
    rewrite Z.pow_add_r by lia. reflexivity. }
  rewrite Z.mod_small; lia.
Qed.

Lemma to_long_ulong_sub (w a b : Z) :
  0 < w -> to_long w (to_ulong w a - to_ulong w b) = to_long w (a - b).
Proof.
  intros Hw. unfold to_long, to_ulong. f_equal.
  assert (Hp : 0 < 2 ^ w) by (apply Z.pow_pos_nonneg; lia).
  replace (a mod 2 ^ w - b mod 2 ^ w + 2 ^ (w - 1))
    with (a mod 2 ^ w + (2 ^ (w - 1) - b mod 2 ^ w)) by lia.
  rewrite Zplus_mod_idemp_l.
  replace (a + (2 ^ (w - 1) - b mod 2 ^ w))
    with ((a + 2 ^ (w - 1)) - b mod 2 ^ w) by lia.
  rewrite Zminus_mod_idemp_r. f_equal. lia.
Qed.

(** Within the grace period the deadline has not passed, whatever the
    position of the tick counter with respect to its wrap-around. *)
Lemma time_before_eq_within (w now d hz : Z) :
  0 < w -> 0 <= d <= hz -> hz < 2 ^ (w - 1) ->
  time_before_eq w (to_ulong w (now + d)) (to_ulong w (now + hz)) = true.
Proof.
  intros Hw Hd Hhz. unfold time_before_eq.
  rewrite to_long_ulong_sub by exact Hw.
  replace (now + hz - (now + d)) with (hz - d) by lia.
  assert (0 < 2 ^ (w - 1)) by (apply Z.pow_pos_nonneg; lia).
  rewrite to_long_small by lia.
  apply Z.leb_le. lia.
Qed.

(** ** The tier loop *)

Section TierLoop.
Variables (K : kconfig) (P : lowmem_params) (vm : vmstat).

(** One iteration, read through [eff_free]. *)
Lemma tier_run_step (n : nat) (s : tier_state) :
  tier_inv K P vm s ->
  exists tf,
    tier_run K P vm (S n) s
    = (if eff_free K P vm (t_i s) <? cell (lowmem_minfree P) (t_i s)
       then {| t_i := t_i s; t_minfree := cell (lowmem_minfree P) (t_i s);
               t_total_free := tf;
               t_min_score_adj := cell (lowmem_adj P) (t_i s) |}
       else tier_run K P vm n
              {| t_i := S (t_i s); t_minfree := cell (lowmem_minfree P) (t_i s);
                 t_total_free := tf;
                 t_min_score_adj := t_min_score_adj s |})
    /\ tier_inv K P vm
         {| t_i := S (t_i s); t_minfree := cell (lowmem_minfree P) (t_i s);
            t_total_free := tf; t_min_score_adj := t_min_score_adj s |}.
Proof.
  intros Hinv. unfold tier_run, tier_inv, eff_free in *. cbn [tier_loop].
  destruct (CONFIG_MP_Android_MSTAR_ADJUST_LOW_MEM_KILLER_POLICY K) eqn:HK.
  - specialize (Hinv eq_refl).
    set (tf := if cell (lowmem_adj P) (t_i s) =? 0
               then int_add (t_total_free s) (active_file_of vm)
               else t_total_free s).
    assert (Htf : tf = to_int (total_free_of K vm + active_file_of vm
                               * zero_adj_count (lowmem_adj P) (S (t_i s)))).
    { subst tf. cbn [zero_adj_count]. rewrite Hinv.
      destruct (cell (lowmem_adj P) (t_i s) =? 0).
      - unfold int_add. rewrite to_int_add_l.
        apply (f_equal to_int). ring.
      - apply (f_equal to_int). ring. }
    exists tf. rewrite <- Htf. split; [reflexivity|].
    intros _. cbn. exact Htf.
  - exists (t_total_free s). split; [|intros Hf; discriminate Hf].
    set (a := int_sub (other_free_of vm) (free_cma_of K vm)).
    set (b := other_file_of vm).
    assert (Hmax : (a <? cell (lowmem_minfree P) (t_i s))
                   && (b <? cell (lowmem_minfree P) (t_i s))
                   = (Z.max a b <? cell (lowmem_minfree P) (t_i s))).
    { destruct (Z.ltb_spec a (cell (lowmem_minfree P) (t_i s)));
        destruct (Z.ltb_spec b (cell (lowmem_minfree P) (t_i s)));
        destruct (Z.ltb_spec (Z.max a b) (cell (lowmem_minfree P) (t_i s)));
        cbn; try reflexivity; lia. }
    rewrite Hmax. reflexivity.
Qed.

(** The loop computes the lookup of the specification, taken at the
    per-entry quantity [eff_free]. *)
Lemma tier_run_lookup (n : nat) : forall s,
  tier_inv K P vm s ->
  t_min_score_adj (tier_run K P vm n s)
  = spec_lookup_from (lowmem_adj P) (lowmem_minfree P) (t_min_score_adj s)
      (eff_free K P vm)
      n (t_i s).
Proof.
  induction n as [|n IH]; intros s Hinv; [reflexivity|].
  destruct (tier_run_step n s Hinv) as (tf & -> & Hinv').
  cbn [spec_lookup_from].
  destruct (eff_free K P vm (t_i s) <? cell (lowmem_minfree P) (t_i s)).
  - reflexivity.
  - rewrite (IH _ Hinv'). reflexivity.
Qed.

(** First match: either the loop breaks at the first entry whose threshold
    exceeds the quantity, or no entry does and the loop runs to its end
    leaving [min_score_adj] alone. *)
Lemma tier_run_first (n : nat) : forall s,
  tier_inv K P vm s ->
  let r := tier_run K P vm n s in
  (exists i : nat,
      (t_i s <= i < t_i s + n)%nat
      /\ eff_free K P vm i < cell (lowmem_minfree P) i
      /\ (forall j : nat, (t_i s <= j < i)%nat ->
                          cell (lowmem_minfree P) j <= eff_free K P vm j)
      /\ t_i r = i /\ t_minfree r = cell (lowmem_minfree P) i
      /\ t_min_score_adj r = cell (lowmem_adj P) i)
  \/ ((forall j : nat, (t_i s <= j < t_i s + n)%nat ->
                       cell (lowmem_minfree P) j <= eff_free K P vm j)
      /\ t_i r = (t_i s + n)%nat
      /\ t_min_score_adj r = t_min_score_adj s).
Proof.
  induction n as [|n IH]; intros s Hinv r.
  - right. subst r. cbn. split; [intros j Hj; lia|]. split; [lia|reflexivity].
  - subst r. destruct (tier_run_step n s Hinv) as (tf & -> & Hinv').
    destruct (Z.ltb_spec (eff_free K P vm (t_i s))
                (cell (lowmem_minfree P) (t_i s)))
      as [Hlt|Hge].
    + left. exists (t_i s). cbn. repeat split; lia.
    + destruct (IH _ Hinv') as [(i & Hi & Hfire & Hbefore & Hr)|(Hnone & Hr)];
        cbn [t_i t_min_score_adj] in *.
      * left. exists i. repeat split; try lia; try apply Hr.
        intros j Hj. destruct (decide (j = t_i s)) as [->|Hne];
          [exact Hge | apply Hbefore; lia].
      * right. repeat split; try lia; try apply Hr.
        intros j Hj. destruct (decide (j = t_i s)) as [->|Hne];
          [exact Hge | apply Hnone; lia].
Qed.

(** The loop reads no cell at or beyond index [t_i s + n]. *)
Lemma tier_run_reads (P' : lowmem_params) (n : nat) : forall s,
  (forall j : nat, (t_i s <= j < t_i s + n)%nat ->
                   cell (lowmem_adj P') j = cell (lowmem_adj P) j
                   /\ cell (lowmem_minfree P') j = cell (lowmem_minfree P) j) ->
  tier_run K P' vm n s = tier_run K P vm n s.
Proof.
  induction n as [|n IH]; intros s Hsame; [reflexivity|].
  unfold tier_run in *. cbn [tier_loop].
  destruct (Hsame (t_i s) ltac:(lia)) as [-> ->].
  repeat match goal with
         | |- context [if ?c then _ else _] => destruct c
         end;
    try reflexivity; apply IH; cbn [t_i]; intros j Hj; apply Hsame; lia.
Qed.

Lemma tier_inv_init :
  tier_inv K P vm
    {| t_i := O; t_minfree := 0; t_total_free := total_free_of K vm;
       t_min_score_adj := OOM_SCORE_ADJ_MAX K + 1 |}.
Proof.
  intros HK. cbn. rewrite Z.mul_0_r, Z.add_0_r.
  symmetry. apply to_int_small.
  unfold total_free_of. rewrite HK.
  destruct (CONFIG_MP_MMA_ENABLE K); apply to_int_range.
Qed.
End TierLoop.

(** ** The process scan *)

Lemma eligible_clear (c : Z) (p : task_struct) :
  eligible c (clear_lmk_waiting p) = eligible c p.
Proof. reflexivity. Qed.

Lemma replaces_clear (s : sel_state) (p : task_struct) :
  replaces s (clear_lmk_waiting p) = replaces s p.
Proof. reflexivity. Qed.

Lemma waiting_candidate_clear (p : task_struct) :
  waiting_candidate (clear_lmk_waiting p) = false.
Proof.
  unfold waiting_candidate. cbn.
  destruct (PF_KTHREAD p), (has_mm p); reflexivity.
Qed.

Lemma clear_set_lmk_waiting (p : task_struct) :
  clear_lmk_waiting (task_set_lmk_waiting p) = clear_lmk_waiting p.
Proof. reflexivity. Qed.

Section Scan.
Variables (K : kconfig) (jiffies timeout c : Z).

(** One turn of [for_each_process]: the pass is given up on a task seen
    with its flag set while the deadline has not passed; otherwise the
    task replaces the selection exactly when it is eligible and
    [replaces] holds. *)
Lemma scan_tasks_cons (idx : nat) (p : task_struct)
    (rest : list task_struct) (s : sel_state) :
  scan_tasks K jiffies timeout c idx (p :: rest) s
  = if waiting_candidate p
       && time_before_eq (BITS_PER_LONG K) jiffies timeout then None
    else scan_tasks K jiffies timeout c (S idx) rest
           (if eligible c p && replaces s p
            then {| selected := Some idx;
                    selected_tasksize := tasksize_of p;
                    selected_oom_score_adj := oom_score_adj p |}
            else s).
Proof.
  unfold waiting_candidate, eligible, replaces.
  cbn [scan_tasks].
  destruct (PF_KTHREAD p); [reflexivity|].
  destruct (has_mm p); [|reflexivity]. cbn [negb andb].
  destruct (lmk_waiting p && _); [reflexivity|].
  rewrite Z.ltb_antisym.
  destruct (c <=? oom_score_adj p); [|reflexivity]. cbn [negb andb].
  rewrite Z.leb_antisym.
  destruct (0 <? tasksize_of p); [|reflexivity]. cbn [negb].
  destruct (selected s) as [i|]; [|reflexivity].
  rewrite bool_decide_eq_true_2 by (eexists; reflexivity). cbn [andb].
  destruct (Z.ltb_spec (oom_score_adj p) (selected_oom_score_adj s));
    destruct (Z.ltb_spec (selected_oom_score_adj s) (oom_score_adj p));
    destruct (Z.eqb_spec (oom_score_adj p) (selected_oom_score_adj s));
    destruct (Z.eqb_spec (selected_oom_score_adj s) (oom_score_adj p));
    try lia; cbn [andb orb]; try reflexivity.
  rewrite Z.leb_antisym.
  destruct (selected_tasksize s <? tasksize_of p); reflexivity.
Qed.

(** A task seen with its flag set inside the grace period ends the scan. *)
Lemma scan_tasks_deferred (ts : list task_struct) : forall idx s,
  time_before_eq (BITS_PER_LONG K) jiffies timeout = true ->
  (exists p, In p ts /\ waiting_candidate p = true) ->
  scan_tasks K jiffies timeout c idx ts s = None.
Proof.
  induction ts as [|q rest IH]; intros idx s Hg (p & Hin & Hw).
  - destruct Hin.
  - rewrite scan_tasks_cons, Hg.
    destruct (waiting_candidate q) eqn:Hq; [reflexivity|]. cbn [andb].
    destruct Hin as [->|Hin]; [congruence|].
    apply IH; [exact Hg | exists p; split; assumption].
Qed.

(** Once the deadline has passed the flags are not looked at. *)
Lemma scan_tasks_expired (ts : list task_struct) : forall idx s,
  time_before_eq (BITS_PER_LONG K) jiffies timeout = false ->
  scan_tasks K jiffies timeout c idx ts s
  = scan_tasks K jiffies timeout c idx (map clear_lmk_waiting ts) s.
Proof.
  induction ts as [|q rest IH]; intros idx s Hg; [reflexivity|].
  cbn [map]. rewrite !scan_tasks_cons, Hg, !andb_false_r.
  rewrite eligible_clear, replaces_clear. apply IH. exact Hg.
Qed.

(** A scan that was not given up found what it finds with no flag set. *)
Lemma scan_tasks_some_clear (ts : list task_struct) : forall idx s s',
  scan_tasks K jiffies timeout c idx ts s = Some s' ->
  scan_tasks K jiffies timeout c idx (map clear_lmk_waiting ts) s = Some s'.
Proof.
  induction ts as [|q rest IH]; intros idx s s' Hs; [exact Hs|].
  cbn [map]. rewrite scan_tasks_cons in *.
  rewrite waiting_candidate_clear, eligible_clear, replaces_clear.
  cbn [andb].
  destruct (waiting_candidate q
            && time_before_eq (BITS_PER_LONG K) jiffies timeout);
    [discriminate Hs|].
  apply IH. exact Hs.
Qed.

Lemma worse_not_better (q p : task_struct) : worse q p -> not_better q p.
Proof. unfold worse, not_better. lia. Qed.

Lemma not_better_worse_trans (q b p : task_struct) :
  not_better q b -> worse b p -> worse q p.
Proof. unfold worse, not_better. lia. Qed.

(** The three ways a task leaves the selection's invariant standing. *)
Lemma best_of_skip (all : list task_struct) (idx : nat) (s : sel_state)
    (p : task_struct) :
  best_of all c idx s -> all !! idx = Some p -> eligible c p = false ->
  best_of all c (S idx) s.
Proof.
  unfold best_of. intros Hbest Hp Hel.
  destruct (selected s) as [i|].
  - destruct Hbest as (Hi & b & Hb & Hbel & Hsz & Hadj & Hord).
    split; [lia|]. exists b. repeat split; try assumption.
    + intros Hji. apply (Hord j q); [lia|assumption|assumption|exact Hji].
    + intros Hij. destruct (decide (j = idx)) as [->|Hne]; [congruence|].
      apply (Hord j q); [lia|assumption|assumption|exact Hij].
  - intros j q Hj Hq. destruct (decide (j = idx)) as [->|Hne];
      [congruence | apply (Hbest j q); [lia|assumption]].
Qed.

Lemma best_of_keep (all : list task_struct) (idx : nat) (s : sel_state)
    (p : task_struct) :
  best_of all c idx s -> all !! idx = Some p -> replaces s p = false ->
  best_of all c (S idx) s.
Proof.
  unfold best_of, replaces. intros Hbest Hp Hrep.
  destruct (selected s) as [i|]; [|discriminate Hrep].
  destruct Hbest as (Hi & b & Hb & Hbel & Hsz & Hadj & Hord).
  rewrite Hsz, Hadj in Hrep.
  apply orb_false_iff in Hrep as [Hlt Hrep]. apply Z.ltb_ge in Hlt.
  assert (Hpb : not_better p b).
  { unfold not_better.
    destruct (Z.eqb_spec (oom_score_adj b) (oom_score_adj p)) as [He|Hne];
      [|lia]. cbn [andb] in Hrep. apply Z.ltb_ge in Hrep. lia. }
  split; [lia|]. exists b. repeat split; try assumption.
  - intros Hji. apply (Hord j q); [lia|assumption|assumption|exact Hji].
  - intros Hij. destruct (decide (j = idx)) as [->|Hne].
    + replace q with p by congruence. exact Hpb.
    + apply (Hord j q); [lia|assumption|assumption|exact Hij].
Qed.

Lemma best_of_replace (all : list task_struct) (idx : nat) (s : sel_state)
    (p : task_struct) :
  best_of all c idx s -> all !! idx = Some p -> eligible c p = true ->
  replaces s p = true ->
  best_of all c (S idx)
    {| selected := Some idx; selected_tasksize := tasksize_of p;
       selected_oom_score_adj := oom_score_adj p |}.
Proof.
  unfold best_of, replaces. intros Hbest Hp Hel Hrep. cbn.
  split; [lia|]. exists p.
  split; [exact Hp|]. split; [exact Hel|]. do 2 (split; [reflexivity|]).
  intros j q Hj Hq Hqel. split; [|lia]. intros Hji.
  destruct (selected s) as [i|].
  - destruct Hbest as (Hi & b & Hb & Hbel & Hsz & Hadj & Hord).
    rewrite Hsz, Hadj in Hrep.
    assert (Hbp : worse b p).
    { unfold worse. apply orb_true_iff in Hrep as [Hlt|Hrep].
      - apply Z.ltb_lt in Hlt. lia.
      - apply andb_true_iff in Hrep as [He Hlt].
        apply Z.eqb_eq in He. apply Z.ltb_lt in Hlt. lia. }
    destruct (decide (j = i)) as [->|Hne].
    + replace q with b by congruence. exact Hbp.
    + destruct (Hord j q ltac:(lia) ltac:(assumption) ltac:(assumption))
        as [Hlo Hhi].
      apply not_better_worse_trans with b; [|exact Hbp].
      destruct (decide (j < i)%nat);
        [apply worse_not_better, Hlo; lia | apply Hhi; lia].
  - rewrite (Hbest j q) in Hqel; [discriminate|lia|assumption].
Qed.

(** The invariant of the scan: the selection is a best eligible task of
    the part of the list already walked. *)
Lemma scan_tasks_best (all : list task_struct) (ts : list task_struct) :
  forall idx s s',
    (forall k : nat, ts !! k = all !! (idx + k)%nat) ->
    best_of all c idx s ->
    scan_tasks K jiffies timeout c idx ts s = Some s' ->
    best_of all c (idx + length ts) s'.
Proof.
  induction ts as [|p rest IH]; intros idx s s' Hall Hbest Hs.
  - cbn in Hs. injection Hs as <-. cbn [length].
    rewrite Nat.add_0_r. exact Hbest.
  - rewrite scan_tasks_cons in Hs.
    destruct (waiting_candidate p
              && time_before_eq (BITS_PER_LONG K) jiffies timeout);
      [discriminate Hs|].
    assert (Hp : all !! idx = Some p).
    { rewrite <- (Nat.add_0_r idx). rewrite <- Hall. reflexivity. }
    replace (idx + length (p :: rest))%nat with (S idx + length rest)%nat
      by (cbn [length]; lia).
    refine (IH (S idx) _ s' _ _ Hs).
    { intros k. replace (S idx + k)%nat with (idx + S k)%nat by lia.
      apply (Hall (S k)). }
    destruct (eligible c p) eqn:Hel; cbn [andb].
    + destruct (replaces s p) eqn:Hrep.
      * apply best_of_replace with s; assumption.
      * apply best_of_keep with p; assumption.
    + apply best_of_skip with p; assumption.
Qed.
End Scan.

(** ** One pass *)

Lemma best_of_init (all : list task_struct) (c : Z) :
  best_of all c 0 (sel_init c).
Proof. intros j q Hj. lia. Qed.

Lemma cma_hooks_no_kill (K : kconfig) (P : lowmem_params) (sel : nat) :
  ~ In (send_sig_SIGKILL sel) (cma_hooks K P).
Proof.
  unfold cma_hooks. intros Hin.
  destruct (CONFIG_CMA K); [|destruct Hin].
  apply in_app_or in Hin as [Hin|Hin];
    match type of Hin with
    | In _ (if ?b then _ else _) => destruct b
    end;
    repeat (destruct Hin as [Hin|Hin]; [discriminate Hin|]); destruct Hin.
Qed.

(** The two ways a pass ends: nothing is done, or the selected task is
    killed, flagged, and the deadline is set. *)
Lemma lowmem_scan_cases (K : kconfig) (P : lowmem_params) (vm : vmstat)
    (jiffies : Z) (st : kstate) :
  let c := t_min_score_adj (tier_walk K P vm) in
  let o := lowmem_scan K P vm jiffies st in
  (o = {| rem := 0; after := st; events := cma_hooks K P |}
   /\ (c = OOM_SCORE_ADJ_MAX K + 1
       \/ scan_tasks K jiffies (lowmem_deathpending_timeout st) c O (tasks st)
            (sel_init c) = None
       \/ exists s,
           scan_tasks K jiffies (lowmem_deathpending_timeout st) c O
             (tasks st) (sel_init c) = Some s /\ selected s = None))
  \/ exists (s : sel_state) (sel : nat) (p : task_struct),
      c <> OOM_SCORE_ADJ_MAX K + 1
      /\ scan_tasks K jiffies (lowmem_deathpending_timeout st) c O (tasks st)
           (sel_init c) = Some s
      /\ selected s = Some sel
      /\ tasks st !! sel = Some p
      /\ eligible c p = true
      /\ o = {| rem := to_ulong (BITS_PER_LONG K) (tasksize_of p);
                after :=
                  {| tasks := <[sel := task_set_lmk_waiting p]> (tasks st);
                     lowmem_deathpending_timeout :=
                       to_ulong (BITS_PER_LONG K) (jiffies + HZ K) |};
                events := cma_hooks K P ++ [send_sig_SIGKILL sel] |}.
Proof.
  intros c o. subst o. unfold lowmem_scan. fold c. fold (sel_init c).
  destruct (Z.eqb_spec c (OOM_SCORE_ADJ_MAX K + 1)) as [Hc|Hc];
    [left; split; [reflexivity | left; exact Hc]|].
  destruct (scan_tasks K jiffies (lowmem_deathpending_timeout st) c 0
              (tasks st) (sel_init c)) as [s|] eqn:Hscan;
    [|left; split; [reflexivity | right; left; reflexivity]].
  destruct (selected s) as [sel|] eqn:Hsel;
    [|left; split; [reflexivity | right; right; exists s; split; auto]].
  right. exists s, sel.
  pose proof (scan_tasks_best K jiffies (lowmem_deathpending_timeout st) c
                (tasks st) (tasks st) O (sel_init c) s
                (fun k => eq_refl) (best_of_init _ _) Hscan) as Hbest.
  unfold best_of in Hbest. rewrite Hsel in Hbest.
  destruct Hbest as (_ & p & Hp & Hel & Hsz & _).
  exists p. rewrite Hp, Hsz.
  assert (Hmm : has_mm p = true).
  { unfold eligible in Hel. destruct (has_mm p); [reflexivity|].
    rewrite andb_false_r in Hel. discriminate Hel. }
  rewrite Hmm. auto 10.
Qed.

(** A kill is dispatched exactly in the second case. *)
Lemma dispatched_inv (K : kconfig) (P : lowmem_params) (vm : vmstat)
    (jiffies : Z) (st : kstate) (sel : nat) :
  let c := t_min_score_adj (tier_walk K P vm) in
  let o := lowmem_scan K P vm jiffies st in
  In (send_sig_SIGKILL sel) (events o) ->
  exists (s : sel_state) (p : task_struct),
    c <> OOM_SCORE_ADJ_MAX K + 1
    /\ scan_tasks K jiffies (lowmem_deathpending_timeout st) c O (tasks st)
         (sel_init c) = Some s
    /\ selected s = Some sel
    /\ tasks st !! sel = Some p
    /\ eligible c p = true
    /\ o = {| rem := to_ulong (BITS_PER_LONG K) (tasksize_of p);
              after :=
                {| tasks := <[sel := task_set_lmk_waiting p]> (tasks st);
                   lowmem_deathpending_timeout :=
                     to_ulong (BITS_PER_LONG K) (jiffies + HZ K) |};
              events := cma_hooks K P ++ [send_sig_SIGKILL sel] |}.
Proof.
  intros c o Hin. subst o.
  destruct (lowmem_scan_cases K P vm jiffies st)
    as [[Ho _]|(s & sel' & p & Hc & Hscan & Hsel & Hp & Hel & Ho)];
    rewrite Ho in Hin; cbn [events] in Hin.
  - exfalso. exact (cma_hooks_no_kill _ _ _ Hin).
  - apply in_app_or in Hin as [Hin|Hin];
      [exfalso; exact (cma_hooks_no_kill _ _ _ Hin)|].
    destruct Hin as [Heq|[]]. injection Heq as <-.
    exists s, p. auto 10.
Qed.

Lemma not_dispatched_inv (K : kconfig) (P : lowmem_params) (vm : vmstat)
    (jiffies : Z) (st : kstate) :
  let o := lowmem_scan K P vm jiffies st in
  ~ dispatched o ->
  o = {| rem := 0; after := st; events := cma_hooks K P |}.
Proof.
  intros o Hno. subst o.
  destruct (lowmem_scan_cases K P vm jiffies st)
    as [[Ho _]|(s & sel & p & _ & _ & _ & _ & _ & Ho)]; [exact Ho|].
  exfalso. apply Hno. exists sel. rewrite Ho. cbn [events].
  apply in_or_app. right. left. reflexivity.
Qed.

(** [eligible] is the filter of the code: a task alone on the list is
    selected exactly when it is eligible (the deadline having passed, so
    that no flag interferes). *)
Lemma eligible_scan_one (K : kconfig) (jiffies timeout c : Z)
    (p : task_struct) :
  time_before_eq (BITS_PER_LONG K) jiffies timeout = false ->
  scan_tasks K jiffies timeout c O [p] (sel_init c)
  = Some (if eligible c p
          then {| selected := Some O; selected_tasksize := tasksize_of p;
                  selected_oom_score_adj := oom_score_adj p |}
          else sel_init c).
Proof.
  intros Hg. rewrite scan_tasks_cons, Hg, andb_false_r.
  cbn [scan_tasks replaces sel_init selected]. rewrite andb_true_r.
  reflexivity.
Qed.

(** ** Victim selection *)

(** C1.  For every cutoff and every process list, the victim the scan ends
    with is a best eligible task for the order "higher priority value, then
    larger resident size": it strictly beats every eligible task walked
    before it and no eligible task walked after it beats it, so that among
    eligible tasks of equal priority value the largest wins and a full tie
    goes to the task seen first.  The scan gets there by the rule that an
    eligible task replaces the current selection exactly when nothing is
    selected, its priority value is strictly higher, or the priority value
    is equal and its size strictly larger. *)
Theorem selection_is_best (K : kconfig) (jiffies timeout c : Z)
    (ts : list task_struct) (s' : sel_state) (i : nat) :
  scan_tasks K jiffies timeout c O ts (sel_init c) = Some s' ->
  selected s' = Some i ->
  (exists p : task_struct,
      ts !! i = Some p /\ eligible c p = true
      /\ selected_tasksize s' = tasksize_of p
      /\ selected_oom_score_adj s' = oom_score_adj p
      /\ forall (j : nat) (q : task_struct),
          ts !! j = Some q -> eligible c q = true ->
          ((j < i)%nat -> worse q p) /\ ((i < j)%nat -> not_better q p))
  /\ (forall (idx : nat) (p : task_struct) (rest : list task_struct)
             (s : sel_state),
         waiting_candidate p
         && time_before_eq (BITS_PER_LONG K) jiffies timeout = false ->
         eligible c p = true ->
         scan_tasks K jiffies timeout c idx (p :: rest) s
         = scan_tasks K jiffies timeout c (S idx) rest
             (if replaces s p
              then {| selected := Some idx;
                      selected_tasksize := tasksize_of p;
                      selected_oom_score_adj := oom_score_adj p |}
              else s)).
Proof.
  intros Hscan Hsel. split.
  - pose proof (scan_tasks_best K jiffies timeout c ts ts O (sel_init c) s'
                  (fun k => eq_refl) (best_of_init _ _) Hscan) as Hbest.
    unfold best_of in Hbest. rewrite Hsel in Hbest.
    destruct Hbest as (_ & p & Hp & Hel & Hsz & Hadj & Hord).
    exists p. repeat (split; [assumption|]).
    intros j q Hq Hqel. apply Hord; [|assumption|assumption].
    apply lookup_lt_Some in Hq. exact Hq.
  - intros idx p rest s Hw Hel.
    rewrite scan_tasks_cons, Hw, Hel. reflexivity.
Qed.

(** Three tasks of priority 8 and sizes 100, 500, 500: the first of the two
    largest is chosen. *)
Lemma selection_is_best_witness :
  let ts := [user_task 1 8 100 false; user_task 2 8 500 false;
             user_task 3 8 500 false] in
  exists p : task_struct,
    ts !! 1%nat = Some p /\ eligible 8 p = true
    /\ forall (j : nat) (q : task_struct),
        ts !! j = Some q -> eligible 8 q = true ->
        ((j < 1)%nat -> worse q p) /\ ((1 < j)%nat -> not_better q p).
Proof.
  intros ts.
  destruct (selection_is_best K_plain 0 0 8 ts
              {| selected := Some 1%nat; selected_tasksize := 500;
                 selected_oom_score_adj := 8 |} 1%nat
              eq_refl eq_refl) as [(p & Hp & Hel & _ & _ & Hord) _].
  exists p. split; [exact Hp|]. split; [exact Hel|]. exact Hord.
Defined.

(** C2.  For every cutoff and every process list, a victim the scan ends
    with has a resident size strictly above 0, a priority value at least the
    cutoff, and is no kernel thread (and has an address space); a task that
    fails one of these is never the victim. *)
Theorem selection_respects_filters (K : kconfig) (jiffies timeout c : Z)
    (ts : list task_struct) (s' : sel_state) (i : nat) :
  scan_tasks K jiffies timeout c O ts (sel_init c) = Some s' ->
  selected s' = Some i ->
  exists p : task_struct,
    ts !! i = Some p
    /\ 0 < tasksize_of p
    /\ c <= oom_score_adj p
    /\ PF_KTHREAD p = false
    /\ has_mm p = true.
Proof.
  intros Hscan Hsel.
  pose proof (scan_tasks_best K jiffies timeout c ts ts O (sel_init c) s'
                (fun k => eq_refl) (best_of_init _ _) Hscan) as Hbest.
  unfold best_of in Hbest. rewrite Hsel in Hbest.
  destruct Hbest as (_ & p & Hp & Hel & _).
  exists p. split; [exact Hp|].
  unfold eligible in Hel.
  apply andb_true_iff in Hel as [Hel Hsz].
  apply andb_true_iff in Hel as [Hel Hadj].
  apply andb_true_iff in Hel as [Hk Hmm].
  apply Z.ltb_lt in Hsz. apply Z.leb_le in Hadj.
  apply negb_true_iff in Hk. auto.
Qed.

(** A kernel thread, a task below the cutoff and an empty task are passed
    over; the fourth task is the victim. *)
Lemma selection_respects_filters_witness :
  let ts := [ {| pid := 1; PF_KTHREAD := true; has_mm := false;
                 lmk_waiting := false; oom_score_adj := 900;
                 mm_rss := 4000 |};
              user_task 2 0 9000 false; user_task 3 900 0 false;
              user_task 4 6 20 false ] in
  exists p : task_struct,
    ts !! 3%nat = Some p /\ 0 < tasksize_of p /\ 6 <= oom_score_adj p
    /\ PF_KTHREAD p = false /\ has_mm p = true.
Proof.
  intros ts.
  exact (selection_respects_filters K_plain 0 0 6 ts
           {| selected := Some 3%nat; selected_tasksize := 20;
              selected_oom_score_adj := 6 |} 3%nat eq_refl eq_refl).
Defined.

(** C8.  For every process list and cutoffs c1 < c2, the tasks eligible
    under c2 (no kernel thread, priority value at least the cutoff, resident
    size strictly positive) are among those eligible under c1. *)
Theorem eligible_monotone (ts : list task_struct) (c1 c2 : Z) :
  c1 < c2 ->
  forall p : task_struct,
    In p (List.filter (eligible c2) ts) -> In p (List.filter (eligible c1) ts).
Proof.
  intros Hc p Hin.
  apply filter_In in Hin as [Hin Hel]. apply filter_In. split; [exact Hin|].
  unfold eligible in *.
  apply andb_true_iff in Hel as [Hel Hsz].
  apply andb_true_iff in Hel as [Hel Hadj].
  rewrite Hel, Hsz. apply Z.leb_le in Hadj.
  replace (c1 <=? oom_score_adj p) with true; [reflexivity|].
  symmetry. apply Z.leb_le. lia.
Qed.

Lemma eligible_monotone_witness :
  let ts := [user_task 1 0 300 false; user_task 2 8 100 false;
             user_task 3 12 50 false] in
  In (user_task 3 12 50 false) (List.filter (eligible 1) ts).
Proof.
  intros ts.
  apply (eligible_monotone ts 1 12); [lia|].
  vm_compute. left. reflexivity.
Defined.

(** ** The tier lookup *)

Lemma tier_walk_run (K : kconfig) (P : lowmem_params) (vm : vmstat) :
  tier_walk K P vm
  = tier_run K P vm (Z.to_nat (array_size P))
      {| t_i := O; t_minfree := 0; t_total_free := total_free_of K vm;
         t_min_score_adj := OOM_SCORE_ADJ_MAX K + 1 |}.
Proof. reflexivity. Qed.

Lemma array_size_min (P : lowmem_params) :
  array_size P
  = Z.min (Z.min (lowmem_adj_size P) (lowmem_minfree_size P))
      ARRAY_SIZE_lowmem_adj.
Proof.
  unfold array_size, ARRAY_SIZE_lowmem_adj.
  destruct (Z.ltb_spec (lowmem_adj_size P) 6);
    match goal with
    | |- context [?a <? ?b] => destruct (Z.ltb_spec a b)
    end; lia.
Qed.

Lemma idle_pass (K : kconfig) (P : lowmem_params) (vm : vmstat)
    (jiffies : Z) (st : kstate) :
  t_min_score_adj (tier_walk K P vm) = OOM_SCORE_ADJ_MAX K + 1 ->
  lowmem_scan K P vm jiffies st
  = {| rem := 0; after := st; events := cma_hooks K P |}.
Proof.
  intros Hc. unfold lowmem_scan. rewrite Hc, Z.eqb_refl. reflexivity.
Qed.

(** The first-match rule of the loop, at the quantity each entry is
    compared with. *)
Lemma tier_walk_first_eff (K : kconfig) (P : lowmem_params)
    (vm : vmstat) :
  let n := Z.to_nat (array_size P) in
  let r := tier_walk K P vm in
  (forall i : nat,
      (i < n)%nat ->
      eff_free K P vm i < cell (lowmem_minfree P) i ->
      (forall j : nat, (j < i)%nat ->
                       cell (lowmem_minfree P) j <= eff_free K P vm j) ->
      t_min_score_adj r = cell (lowmem_adj P) i /\ t_i r = i)
  /\ ((forall j : nat, (j < n)%nat ->
                       cell (lowmem_minfree P) j <= eff_free K P vm j) ->
      t_min_score_adj r = OOM_SCORE_ADJ_MAX K + 1
      /\ forall (jiffies : Z) (st : kstate),
          let o := lowmem_scan K P vm jiffies st in
          rem o = 0 /\ after o = st /\ ~ dispatched o)
  /\ (array_size P <= 0 -> t_min_score_adj r = OOM_SCORE_ADJ_MAX K + 1).
Proof.
  intros n r. subst r. rewrite tier_walk_run. fold n.
  pose proof (tier_run_first K P vm n _ (tier_inv_init K P vm)) as Hfirst.
  cbn [t_i t_min_score_adj] in Hfirst. cbv zeta in Hfirst.
  assert (Hnone :
    (forall j : nat, (j < n)%nat ->
                     cell (lowmem_minfree P) j <= eff_free K P vm j) ->
    t_min_score_adj
      (tier_run K P vm n
         {| t_i := O; t_minfree := 0; t_total_free := total_free_of K vm;
            t_min_score_adj := OOM_SCORE_ADJ_MAX K + 1 |})
    = OOM_SCORE_ADJ_MAX K + 1).
  { intros Hge.
    destruct Hfirst as [(i & Hi & Hfire & _)|(_ & _ & Hr)]; [|exact Hr].
    specialize (Hge i ltac:(lia)). lia. }
  split; [|split].
  - intros i Hi Hfire Hbefore.
    destruct Hfirst as [(i0 & Hi0 & Hfire0 & Hbefore0 & Hri & _ & Hradj)
                       |(Hge & _)].
    + assert (i0 = i) as ->.
      { destruct (Nat.lt_trichotomy i0 i) as [Hlt|[Heq|Hgt]]; [|exact Heq|].
        - specialize (Hbefore i0 Hlt). lia.
        - specialize (Hbefore0 i ltac:(lia)). lia. }
      split; assumption.
    + specialize (Hge i ltac:(lia)). lia.
  - intros Hge. split; [exact (Hnone Hge)|].
    intros jiffies st o. subst o.
    rewrite idle_pass by (rewrite tier_walk_run; exact (Hnone Hge)).
    cbn [rem after events]. split; [reflexivity|]. split; [reflexivity|].
    intros [sel Hin]. exact (cma_hooks_no_kill _ _ _ Hin).
  - intros Hempty. apply Hnone. intros j Hj. subst n. lia.
Qed.

(** C4.  For every configured priority-list length and threshold-list
    length, the table a lookup works on has as many entries as the minimum
    of the two lengths and the capacity 6: the walk never reads an entry at
    or beyond that index, and reads all of them when none fires.  With six
    priorities and three thresholds only the first three entries count. *)
Theorem effective_table_length (K : kconfig) (P : lowmem_params)
    (vm : vmstat) :
  let n := Z.to_nat (Z.min (Z.min (lowmem_adj_size P) (lowmem_minfree_size P))
                       6) in
  array_size P = Z.min (Z.min (lowmem_adj_size P) (lowmem_minfree_size P)) 6
  /\ (t_i (tier_walk K P vm) <= n)%nat
  /\ ((forall j : nat, (j < n)%nat ->
                       cell (lowmem_minfree P) j <= eff_free K P vm j) ->
      t_i (tier_walk K P vm) = n)
  /\ (forall P' : lowmem_params,
         lowmem_adj_size P' = lowmem_adj_size P ->
         lowmem_minfree_size P' = lowmem_minfree_size P ->
         (forall j : nat, (j < n)%nat ->
                          cell (lowmem_adj P') j = cell (lowmem_adj P) j
                          /\ cell (lowmem_minfree P') j
                             = cell (lowmem_minfree P) j) ->
         tier_walk K P' vm = tier_walk K P vm)
  /\ (lowmem_adj_size P = 6 -> lowmem_minfree_size P = 3 -> n = 3%nat).
Proof.
  intros n. pose proof (array_size_min P) as Hsize.
  unfold ARRAY_SIZE_lowmem_adj in Hsize.
  assert (Hn : Z.to_nat (array_size P) = n)
    by (subst n; rewrite Hsize; reflexivity).
  pose proof (tier_run_first K P vm n _ (tier_inv_init K P vm)) as Hfirst.
  cbn [t_i t_min_score_adj] in Hfirst. cbv zeta in Hfirst.
  rewrite !tier_walk_run, Hn.
  split; [exact Hsize|]. split; [|split; [|split]].
  - destruct Hfirst as [(i & Hi & _ & _ & -> & _)|(_ & -> & _)]; lia.
  - intros Hge.
    destruct Hfirst as [(i & Hi & Hfire & _)|(_ & -> & _)]; [|lia].
    specialize (Hge i ltac:(lia)). lia.
  - intros P' Hadj Hmin Hsame.
    rewrite tier_walk_run.
    replace (Z.to_nat (array_size P')) with n.
    + apply tier_run_reads. cbn [t_i]. intros j Hj. apply Hsame. lia.
    + rewrite <- Hn. rewrite (array_size_min P'), Hsize, Hadj, Hmin.
      reflexivity.
  - intros Hadj Hmin. subst n. rewrite Hadj, Hmin. reflexivity.
Qed.

(** Six priorities and three thresholds: whatever stands in the cells 3 to
    5, the lookup is the one of the first three entries. *)
Lemma effective_table_length_witness :
  let P := {| lowmem_adj := [0; 1; 6; 12; 13; 15]; lowmem_adj_size := 6;
              lowmem_minfree := [1536; 2048; 4096]; lowmem_minfree_size := 3 |}
  in
  let P' := {| lowmem_adj := [0; 1; 6; 2; 3; 4]; lowmem_adj_size := 6;
               lowmem_minfree := [1536; 2048; 4096; 16384; 20000; 30000];
               lowmem_minfree_size := 3 |} in
  array_size P = 3
  /\ tier_walk K_plain P' (reading 5000 0)
     = tier_walk K_plain P (reading 5000 0)
  /\ t_i (tier_walk K_plain P (reading 5000 0)) = 3%nat.
Proof.
  intros P P'.
  destruct (effective_table_length K_plain P (reading 5000 0))
    as (Hsize & _ & Hall & Hsame & _).
  split; [exact Hsize|]. split.
  - apply Hsame; [reflexivity|reflexivity|].
    intros j Hj.
    assert (j = O \/ j = 1%nat \/ j = 2%nat) as [-> | [-> | ->]]
      by (vm_compute in Hj; lia); split; reflexivity.
  - apply Hall. intros j Hj.
    assert (j = O \/ j = 1%nat \/ j = 2%nat) as [-> | [-> | ->]]
      by (vm_compute in Hj; lia); vm_compute; discriminate.
Defined.

(** ** The quantity the thresholds are compared with *)

Lemma spec_lookup_from_ext (adj minfree : list Z) (sentinel : Z)
    (f g : nat -> Z) (n : nat) : forall i : nat,
  (forall j : nat, (i <= j < i + n)%nat -> f j = g j) ->
  spec_lookup_from adj minfree sentinel f n i
  = spec_lookup_from adj minfree sentinel g n i.
Proof.
  induction n as [|n IH]; intros i Hfg; [reflexivity|].
  cbn [spec_lookup_from]. rewrite (Hfg i) by lia.
  destruct (g i <? cell minfree i); [reflexivity|].
  apply IH. intros j Hj. apply Hfg. lia.
Qed.

Lemma zero_adj_count_none (adj : list Z) (i : nat) :
  (forall j : nat, (j < i)%nat -> cell adj j <> 0) ->
  zero_adj_count adj i = 0.
Proof.
  induction i as [|i IH]; intros Hnz; [reflexivity|].
  cbn [zero_adj_count]. rewrite IH by (intros j Hj; apply Hnz; lia).
  destruct (Z.eqb_spec (cell adj i) 0) as [He|_]; [|reflexivity].
  exfalso. exact (Hnz i ltac:(lia) He).
Qed.

Lemma tier_walk_lookup_at (K : kconfig) (P : lowmem_params) (vm : vmstat) :
  t_min_score_adj (tier_walk K P vm)
  = TierTable_lookup_at K P (eff_free K P vm).
Proof.
  rewrite tier_walk_run.
  rewrite (tier_run_lookup K P vm _ _ (tier_inv_init K P vm)).
  reflexivity.
Qed.

(** With the vendor policy, 1000 free pages and 500 file pages, all of them
    active: a table whose only entry has priority 1 and threshold 1001
    fires (1000 < 1001), so a single quantity would have to be below 1001;
    the table whose only entry has priority 0 and the same threshold does
    not fire (1000 + 500 >= 1001), so it would have to be at least 1001. *)
Lemma single_quantity_fails :
  ~ exists q : Z,
      forall P : lowmem_params,
        t_min_score_adj (tier_walk K_mstar P (reading_active 1000 500 500))
        = TierTable_lookup K_mstar P q.
Proof.
  intros [q Hq].
  pose proof (Hq (table [1] [1001])) as H1.
  pose proof (Hq (table [0] [1001])) as H0.
  change (1 = if q <? 1001 then 1 else 1001) in H1.
  change (1001 = if q <? 1001 then 0 else 1001) in H0.
  destruct (q <? 1001); discriminate.
Qed.

(** C5, amended.  The cutoff is the lookup of the table at the quantity
    [eff_free].  Without the vendor policy that is one quantity for all
    entries, the larger of [other_free - free_cma] and [other_file] (an
    entry fires when both are below its threshold).  With the vendor policy
    free and cache are combined into [total_free] before the lookup, and
    that is the quantity compared with every threshold when no file page is
    active or no entry of the table has priority 0; otherwise [active_file]
    is added to it at each entry of priority 0. *)
Theorem cutoff_by_effective_free (K : kconfig) (P : lowmem_params)
    (vm : vmstat) :
  t_min_score_adj (tier_walk K P vm)
  = TierTable_lookup_at K P (eff_free K P vm)
  /\ (CONFIG_MP_Android_MSTAR_ADJUST_LOW_MEM_KILLER_POLICY K = false ->
      t_min_score_adj (tier_walk K P vm)
      = TierTable_lookup K P
          (Z.max (int_sub (other_free_of vm) (free_cma_of K vm))
                 (other_file_of vm)))
  /\ (CONFIG_MP_Android_MSTAR_ADJUST_LOW_MEM_KILLER_POLICY K = true ->
      active_file_of vm = 0
      \/ (forall j : nat, (j < Z.to_nat (array_size P))%nat ->
                          cell (lowmem_adj P) j <> 0) ->
      t_min_score_adj (tier_walk K P vm)
      = TierTable_lookup K P (total_free_of K vm))
  /\ (CONFIG_MP_Android_MSTAR_ADJUST_LOW_MEM_KILLER_POLICY K = true ->
      forall i : nat,
        eff_free K P vm i
        = to_int (total_free_of K vm
                  + active_file_of vm
                    * zero_adj_count (lowmem_adj P) (S i))).
Proof.
  split; [apply tier_walk_lookup_at|]. split; [|split].
  - intros HK. rewrite tier_walk_lookup_at.
    unfold TierTable_lookup, TierTable_lookup_at.
    apply spec_lookup_from_ext. intros j _. unfold eff_free. rewrite HK.
    reflexivity.
  - intros HK Hcase. rewrite tier_walk_lookup_at.
    unfold TierTable_lookup, TierTable_lookup_at.
    apply spec_lookup_from_ext. intros j Hj. unfold eff_free. rewrite HK.
    assert (Hzero : active_file_of vm
                    * zero_adj_count (lowmem_adj P) (S j) = 0).
    { destruct Hcase as [-> | Hnz]; [apply Z.mul_0_l|].
      rewrite zero_adj_count_none; [apply Z.mul_0_r|].
      intros k Hk. apply Hnz. lia. }
    rewrite Hzero, Z.add_0_r.
    apply to_int_small.
    unfold total_free_of. rewrite HK.
    destruct (CONFIG_MP_MMA_ENABLE K); apply to_int_range.
  - intros HK i. unfold eff_free. rewrite HK. reflexivity.
Qed.

(** Scenario A in both builds: 900 free pages, no cache. *)
Lemma cutoff_by_effective_free_witness :
  TierTable_lookup K_plain table_AB 900 = 0
  /\ t_min_score_adj (tier_walk K_plain table_AB (reading 900 0)) = 0
  /\ t_min_score_adj (tier_walk K_mstar table_AB (reading 900 0))
     = TierTable_lookup K_mstar table_AB 900.
Proof.
  split; [reflexivity|]. split.
  - destruct (cutoff_by_effective_free K_plain table_AB (reading 900 0))
      as (_ & Hplain & _).
    rewrite (Hplain eq_refl). reflexivity.
  - destruct (cutoff_by_effective_free K_mstar table_AB (reading 900 0))
      as (_ & _ & Hmstar & _).
    rewrite (Hmstar eq_refl (or_introl eq_refl)). reflexivity.
Defined.

(** ** The first-match rule and the quantity it is about *)

(** With the vendor policy the quantity is [total_free] at every entry when
    no file page is active or no entry has priority 0. *)
Lemma eff_free_single (K : kconfig) (P : lowmem_params) (vm : vmstat) :
  CONFIG_MP_Android_MSTAR_ADJUST_LOW_MEM_KILLER_POLICY K = true ->
  active_file_of vm = 0
  \/ (forall j : nat, (j < Z.to_nat (array_size P))%nat ->
                      cell (lowmem_adj P) j <> 0) ->
  forall i : nat, (i < Z.to_nat (array_size P))%nat ->
    eff_free K P vm i = total_free_of K vm.
Proof.
  intros HK Hcase i Hi. unfold eff_free. rewrite HK.
  assert (Hzero : active_file_of vm
                  * zero_adj_count (lowmem_adj P) (S i) = 0).
  { destruct Hcase as [-> | Hnz]; [apply Z.mul_0_l|].
    rewrite zero_adj_count_none; [apply Z.mul_0_r|].
    intros k Hk. apply Hnz. lia. }
  rewrite Hzero, Z.add_0_r. apply to_int_small.
  unfold total_free_of. rewrite HK.
  destruct (CONFIG_MP_MMA_ENABLE K); apply to_int_range.
Qed.

(** Where every entry is compared with the same value, the rule holds with
    that value. *)
Lemma first_match_at_of_eff (K : kconfig) (P : lowmem_params) (vm : vmstat)
    (q : Z) :
  (forall i : nat, (i < Z.to_nat (array_size P))%nat ->
                   eff_free K P vm i = q) ->
  first_match_at K P vm q.
Proof.
  intros Hq. unfold first_match_at.
  destruct (tier_walk_first_eff K P vm) as (Hfirst & Hnone & _).
  split.
  - intros i Hi Hfire Hbefore.
    apply (Hfirst i Hi).
    + rewrite (Hq i Hi). exact Hfire.
    + intros j Hj. rewrite (Hq j) by lia. exact (Hbefore j Hj).
  - intros Hge. apply Hnone. intros j Hj. rewrite (Hq j Hj).
    exact (Hge j Hj).
Qed.

(** The rule read with one quantity per reading, and with the free pages as
    that quantity, fails on the code.
    - Vendor policy, 1000 free pages and 500 file pages, all active: the
      one-entry table (1, 1001) fires, so the quantity would be below 1001;
      the one-entry table (0, 1001) does not, so it would be at least 1001.
    - Vendor policy, table of the source, allocation not movable, 30000
      free pages of which 25000 are CMA pages: the free pages are above
      every threshold and the fourth tier fires.
    - No vendor policy, table (0, 1024), (8, 4096), 5000 free pages of
      which 4500 are reserved: the free pages are above both thresholds,
      the first tier fires and the only task is killed. *)
Lemma one_quantity_first_match_fails :
  (~ exists q : Z,
       forall P : lowmem_params,
         first_match_at K_mstar P (reading_active 1000 500 500) q)
  /\ ((forall j : nat, (j < 4)%nat ->
         cell (lowmem_minfree lowmem_params_init) j
         <= NR_FREE_PAGES (reading_cma 30000 25000))
      /\ t_min_score_adj
           (tier_walk K_mstar lowmem_params_init (reading_cma 30000 25000))
         = 12)
  /\ ((forall j : nat, (j < 2)%nat ->
         cell (lowmem_minfree table_AB) j
         <= NR_FREE_PAGES (reading_reserved 5000 4500))
      /\ t_min_score_adj
           (tier_walk K_plain table_AB (reading_reserved 5000 4500)) = 0
      /\ rem (lowmem_scan K_plain table_AB (reading_reserved 5000 4500) 7
                {| tasks := [user_task 1 0 100 false];
                   lowmem_deathpending_timeout := 0 |}) = 100).
Proof.
  split; [|split].
  - intros [q Hq].
    destruct (Hq (table [1] [1001])) as [_ Hnone1].
    destruct (Hq (table [0] [1001])) as [Hfirst0 _].
    destruct (Z.lt_ge_cases q 1001) as [Hlt|Hge].
    + specialize (Hfirst0 O ltac:(vm_compute; lia) Hlt
                    ltac:(intros j Hj; lia)).
      vm_compute in Hfirst0. discriminate Hfirst0.
    + destruct Hnone1 as [Hsent _].
      * intros j Hj. assert (j = O) as -> by (vm_compute in Hj; lia).
        exact Hge.
      * vm_compute in Hsent. discriminate Hsent.
  - split; [|reflexivity].
    intros j Hj.
    destruct j as [|[|[|[|j]]]]; try lia; vm_compute; discriminate.
  - split; [|split; reflexivity].
    intros j Hj.
    destruct j as [|[|j]]; try lia; vm_compute; discriminate.
Qed.

(** C3, amended.  For every tier table and reading, the lookup walks the
    entries in ascending index order and takes the priority of the first
    entry whose threshold strictly exceeds the quantity that entry is
    compared with; when no entry's threshold exceeds its quantity (in
    particular when the effective table is empty) the lookup yields the
    sentinel [OOM_SCORE_ADJ_MAX + 1] and the pass returns 0 with no kill
    dispatched and nothing changed.  The quantity is one value for the
    whole table without the vendor policy, where it is the larger of
    [other_free - free_cma] and [other_file], so that no tier fires when
    either of the two is at least every threshold; and with the vendor
    policy when no file page is active or no entry has priority 0, where it
    is [total_free].  In general, with the vendor policy, it is
    [total_free] plus [active_file] for every entry of priority 0 up to the
    one compared. *)
Theorem tier_lookup_first_match (K : kconfig) (P : lowmem_params)
    (vm : vmstat) :
  let n := Z.to_nat (array_size P) in
  let r := tier_walk K P vm in
  (forall i : nat,
      (i < n)%nat ->
      eff_free K P vm i < cell (lowmem_minfree P) i ->
      (forall j : nat, (j < i)%nat ->
                       cell (lowmem_minfree P) j <= eff_free K P vm j) ->
      t_min_score_adj r = cell (lowmem_adj P) i /\ t_i r = i)
  /\ ((forall j : nat, (j < n)%nat ->
                       cell (lowmem_minfree P) j <= eff_free K P vm j) ->
      t_min_score_adj r = OOM_SCORE_ADJ_MAX K + 1
      /\ forall (jiffies : Z) (st : kstate),
          let o := lowmem_scan K P vm jiffies st in
          rem o = 0 /\ after o = st /\ ~ dispatched o)
  /\ (array_size P <= 0 -> t_min_score_adj r = OOM_SCORE_ADJ_MAX K + 1)
  /\ (CONFIG_MP_Android_MSTAR_ADJUST_LOW_MEM_KILLER_POLICY K = false ->
      first_match_at K P vm
        (Z.max (int_sub (other_free_of vm) (free_cma_of K vm))
               (other_file_of vm)))
  /\ (CONFIG_MP_Android_MSTAR_ADJUST_LOW_MEM_KILLER_POLICY K = false ->
      (forall j : nat, (j < n)%nat ->
         cell (lowmem_minfree P) j
         <= int_sub (other_free_of vm) (free_cma_of K vm))
      \/ (forall j : nat, (j < n)%nat ->
            cell (lowmem_minfree P) j <= other_file_of vm) ->
      t_min_score_adj r = OOM_SCORE_ADJ_MAX K + 1
      /\ forall (jiffies : Z) (st : kstate),
          let o := lowmem_scan K P vm jiffies st in
          rem o = 0 /\ after o = st /\ ~ dispatched o)
  /\ (CONFIG_MP_Android_MSTAR_ADJUST_LOW_MEM_KILLER_POLICY K = true ->
      active_file_of vm = 0
      \/ (forall j : nat, (j < n)%nat -> cell (lowmem_adj P) j <> 0) ->
      first_match_at K P vm (total_free_of K vm)).
Proof.
  intros n r. subst n r.
  destruct (tier_walk_first_eff K P vm) as (Hfirst & Hnone & Hempty).
  split; [exact Hfirst|]. split; [exact Hnone|]. split; [exact Hempty|].
  assert (Hplain :
    CONFIG_MP_Android_MSTAR_ADJUST_LOW_MEM_KILLER_POLICY K = false ->
    first_match_at K P vm
      (Z.max (int_sub (other_free_of vm) (free_cma_of K vm))
             (other_file_of vm))).
  { intros HK. apply first_match_at_of_eff. intros i _.
    unfold eff_free. rewrite HK. reflexivity. }
  split; [exact Hplain|]. split.
  - intros HK Hge. destruct (Hplain HK) as [_ Hsent]. apply Hsent.
    intros j Hj. destruct Hge as [Hge|Hge]; specialize (Hge j Hj); lia.
  - intros HK Hcase. apply first_match_at_of_eff.
    exact (eff_free_single K P vm HK Hcase).
Qed.

(** Scenario B: 2000 free pages are above the first threshold and below the
    second, whose priority 8 is taken; scenario C: 5000 pages are above
    both, and the pass does nothing. *)
Lemma tier_lookup_first_match_witness :
  t_min_score_adj (tier_walk K_plain table_AB (reading 2000 0)) = 8
  /\ (forall st, rem (lowmem_scan K_plain table_AB (reading 5000 0) 7 st) = 0).
Proof.
  split.
  - destruct (tier_lookup_first_match K_plain table_AB (reading 2000 0))
      as (Hfirst & _).
    apply (Hfirst 1%nat).
    + vm_compute. lia.
    + reflexivity.
    + intros j Hj. assert (j = O) as -> by lia. vm_compute. discriminate.
  - intros st.
    destruct (tier_lookup_first_match K_plain table_AB (reading 5000 0))
      as (_ & _ & _ & _ & Hfree & _).
    apply (Hfree eq_refl). left.
    intros j Hj.
    assert (j = O \/ j = 1%nat) as [-> | ->] by (vm_compute in Hj; lia);
      vm_compute; discriminate.
Defined.

(** ** Return value, state and cooldown *)

Lemma tasksize_fits_ulong (w : Z) (p : task_struct) :
  32 <= w -> 0 < tasksize_of p -> to_ulong w (tasksize_of p) = tasksize_of p.
Proof.
  intros Hw Hpos. apply to_ulong_small.
  pose proof (to_int_range (mm_rss p)) as Hr. fold (tasksize_of p) in Hr.
  assert (2 ^ 31 < 2 ^ w) by (apply Z.pow_lt_mono_r; lia). lia.
Qed.

Lemma eligible_tasksize_pos (c : Z) (p : task_struct) :
  eligible c p = true -> 0 < tasksize_of p.
Proof.
  unfold eligible. intros Hel.
  apply andb_true_iff in Hel as [_ Hsz]. apply Z.ltb_lt. exact Hsz.
Qed.



(** C9.  For every pass that dispatches no kill (no tier fired, no task was
    eligible, or the pass was given up on a pending exit), the cooldown
    deadline and the exit-requested flags of all tasks are what they were:
    the deadline is written only where the signal is sent. *)
Theorem no_dispatch_no_change (K : kconfig) (P : lowmem_params) (vm : vmstat)
    (jiffies : Z) (st : kstate) :
  let o := lowmem_scan K P vm jiffies st in
  ~ dispatched o ->
  lowmem_deathpending_timeout (after o) = lowmem_deathpending_timeout st
  /\ tasks (after o) = tasks st.
Proof.
  intros o Hno. subst o.
  rewrite (not_dispatched_inv K P vm jiffies st Hno). split; reflexivity.
Qed.

(** Scenario E: the pass is given up and leaves deadline and flags alone. *)
Lemma no_dispatch_no_change_witness :
  let st := {| tasks := [user_task 1 8 100 true; user_task 2 8 500 false];
               lowmem_deathpending_timeout := 257 |} in
  let o := lowmem_scan K_plain table_AB (reading 900 0) 257 st in
  lowmem_deathpending_timeout (after o) = 257 /\ tasks (after o) = tasks st.
Proof.
  intros st o.
  apply (no_dispatch_no_change K_plain table_AB (reading 900 0) 257 st).
  intros [sel Hin]. vm_compute in Hin. exact Hin.
Defined.

(** C6.  For every pair of passes: when a first pass at tick [now]
    dispatches a kill, the deadline becomes [now + HZ]; every later pass at
    a tick [now + d] not past that deadline ([0 <= d <= HZ]) that meets a
    task still flagged exit-requested dispatches nothing, returns 0 and
    changes nothing, whatever the table and the reading then are. *)
Theorem deferred_within_grace (K : kconfig) (P P' : lowmem_params)
    (vm vm' : vmstat) (now d : Z) (st : kstate) (ts' : list task_struct) :
  0 < BITS_PER_LONG K ->
  HZ K < 2 ^ (BITS_PER_LONG K - 1) ->
  dispatched (lowmem_scan K P vm now st) ->
  0 <= d <= HZ K ->
  (exists p : task_struct, In p ts' /\ waiting_candidate p = true) ->
  let o1 := lowmem_scan K P vm now st in
  let st2 := {| tasks := ts';
                lowmem_deathpending_timeout :=
                  lowmem_deathpending_timeout (after o1) |} in
  let o2 := lowmem_scan K P' vm' (to_ulong (BITS_PER_LONG K) (now + d)) st2 in
  lowmem_deathpending_timeout (after o1)
  = to_ulong (BITS_PER_LONG K) (now + HZ K)
  /\ rem o2 = 0 /\ ~ dispatched o2 /\ after o2 = st2.
Proof.
  intros Hw Hhz [sel Hkill] Hd Hwait o1 st2 o2.
  destruct (dispatched_inv K P vm now st sel Hkill)
    as (s & p & _ & _ & _ & _ & _ & Ho1).
  assert (Ht : lowmem_deathpending_timeout (after o1)
               = to_ulong (BITS_PER_LONG K) (now + HZ K)).
  { subst o1. rewrite Ho1. reflexivity. }
  split; [exact Ht|].
  assert (Ho2 : o2 = {| rem := 0; after := st2; events := cma_hooks K P' |}).
  { subst o2. unfold lowmem_scan.
    destruct (_ =? _); [reflexivity|].
    rewrite (scan_tasks_deferred K _ _ _ (tasks st2));
      [reflexivity| |exact Hwait].
    subst st2. cbn [lowmem_deathpending_timeout]. rewrite Ht.
    apply time_before_eq_within; assumption. }
  rewrite Ho2. cbn [rem after events].
  split; [reflexivity|]. split; [|reflexivity].
  intros [sel' Hin]. exact (cma_hooks_no_kill _ _ _ Hin).
Qed.

(** Scenario D followed, 100 ticks later and under the heaviest pressure,
    by a pass that still sees the victim flagged. *)
Lemma deferred_within_grace_witness :
  let st := {| tasks := [user_task 1 8 100 false; user_task 2 8 500 false];
               lowmem_deathpending_timeout := 0 |} in
  let o1 := lowmem_scan K_plain table_AB (reading 2000 0) 7 st in
  let o2 := lowmem_scan K_plain table_AB (reading 0 0) 107 (after o1) in
  lowmem_deathpending_timeout (after o1) = 257
  /\ rem o2 = 0 /\ ~ dispatched o2 /\ after o2 = after o1.
Proof.
  intros st o1 o2.
  apply (deferred_within_grace K_plain table_AB table_AB (reading 2000 0)
           (reading 0 0) 7 100 st (tasks (after o1))).
  - reflexivity.
  - reflexivity.
  - exists 1%nat. vm_compute. left. reflexivity.
  - vm_compute. split; discriminate.
  - exists (user_task 2 8 500 true). split; [|reflexivity].
    vm_compute. right. left. reflexivity.
Defined.

(** ** After the deadline *)

Lemma scan_tasks_clear_any (K : kconfig) (j t j' t' c : Z)
    (ts : list task_struct) : forall idx s,
  scan_tasks K j t c idx (map clear_lmk_waiting ts) s
  = scan_tasks K j' t' c idx (map clear_lmk_waiting ts) s.
Proof.
  induction ts as [|q rest IH]; intros idx s; [reflexivity|].
  cbn [map]. rewrite !scan_tasks_cons, waiting_candidate_clear.
  cbn [andb]. apply IH.
Qed.

Lemma map_clear_insert_set (ts : list task_struct) : forall (i : nat) p,
  ts !! i = Some p ->
  map clear_lmk_waiting (<[i := task_set_lmk_waiting p]> ts)
  = map clear_lmk_waiting ts.
Proof.
  induction ts as [|q rest IH]; intros [|i] p Hp; try discriminate Hp.
  - cbn in Hp. injection Hp as ->. reflexivity.
  - cbn. f_equal. apply IH. exact Hp.
Qed.

Lemma lowmem_scan_expired (K : kconfig) (P : lowmem_params) (vm : vmstat)
    (jiffies : Z) (st : kstate) :
  time_before_eq (BITS_PER_LONG K) jiffies (lowmem_deathpending_timeout st)
  = false ->
  let o := lowmem_scan K P vm jiffies st in
  let o0 := lowmem_scan K P vm jiffies (clear_flags st) in
  rem o = rem o0 /\ events o = events o0
  /\ lowmem_deathpending_timeout (after o)
     = lowmem_deathpending_timeout (after o0).
Proof.
  intros Hexp o o0. subst o o0. unfold lowmem_scan, clear_flags.
  cbn [tasks lowmem_deathpending_timeout].
  rewrite (scan_tasks_expired K _ _ _ (tasks st) _ _ Hexp).
  destruct (_ =? _); [auto|].
  destruct (scan_tasks _ _ _ _ _ _ _) as [s|]; [|auto].
  destruct (selected s); auto.
Qed.

(** C10.  Once the deadline has passed, the exit-requested flags have no
    effect on the pass: it returns, signals and sets the deadline as it
    would with every flag cleared, so a flag neither gives the pass up nor
    makes its task ineligible.  In particular a victim that is still there,
    flagged, when the deadline has passed is selected and sent the signal
    again by a pass under the same table and reading. *)
Theorem lmk_waiting_ignored_after_deadline (K : kconfig) (P : lowmem_params)
    (vm : vmstat) (jiffies : Z) (st : kstate) :
  time_before_eq (BITS_PER_LONG K) jiffies (lowmem_deathpending_timeout st)
  = false ->
  let o := lowmem_scan K P vm jiffies st in
  let o0 := lowmem_scan K P vm jiffies (clear_flags st) in
  (rem o = rem o0 /\ events o = events o0
   /\ lowmem_deathpending_timeout (after o)
      = lowmem_deathpending_timeout (after o0))
  /\ (forall (now : Z) (st0 : kstate) (sel : nat),
         st = after (lowmem_scan K P vm now st0) ->
         In (send_sig_SIGKILL sel) (events (lowmem_scan K P vm now st0)) ->
         (exists p : task_struct,
             tasks st !! sel = Some p /\ lmk_waiting p = true)
         /\ In (send_sig_SIGKILL sel) (events o)
         /\ rem o = rem (lowmem_scan K P vm now st0)).
Proof.
  intros Hexp o o0.
  split; [exact (lowmem_scan_expired K P vm jiffies st Hexp)|].
  intros now st0 sel Hst Hkill.
  destruct (dispatched_inv K P vm now st0 sel Hkill)
    as (s & p & Hc & Hscan & Hsel & Hp & Hel & Ho1).
  rewrite Ho1 in Hst. cbn [after] in Hst.
  split.
  - exists (task_set_lmk_waiting p). split; [|reflexivity].
    rewrite Hst. cbn [tasks]. apply list_lookup_insert_eq.
    exact (lookup_lt_Some _ _ _ Hp).
  - assert (Hscan2 :
      scan_tasks K jiffies (lowmem_deathpending_timeout st)
        (t_min_score_adj (tier_walk K P vm)) O (tasks st)
        (sel_init (t_min_score_adj (tier_walk K P vm))) = Some s).
    { rewrite (scan_tasks_expired K _ _ _ (tasks st) _ _ Hexp).
      rewrite Hst. cbn [tasks].
      rewrite (map_clear_insert_set _ _ _ Hp).
      rewrite (scan_tasks_clear_any K _ _ now
                 (lowmem_deathpending_timeout st0)).
      apply scan_tasks_some_clear. exact Hscan. }
    assert (Ho : o = {| rem := to_ulong (BITS_PER_LONG K)
                                 (0 + selected_tasksize s);
                        after := after o;
                        events := cma_hooks K P ++ [send_sig_SIGKILL sel] |}).
    { subst o. unfold lowmem_scan.
      fold (sel_init (t_min_score_adj (tier_walk K P vm))).
      destruct (Z.eqb_spec (t_min_score_adj (tier_walk K P vm))
                  (OOM_SCORE_ADJ_MAX K + 1)) as [Heq|_]; [contradiction|].
      rewrite Hscan2, Hsel. reflexivity. }
    rewrite Ho, Ho1. cbn [rem events]. split.
    + apply in_or_app. right. left. reflexivity.
    + pose proof (scan_tasks_best K now (lowmem_deathpending_timeout st0) _
                    (tasks st0) (tasks st0) O _ s
                    (fun k => eq_refl) (best_of_init _ _) Hscan) as Hbest.
      unfold best_of in Hbest. rewrite Hsel in Hbest.
      destruct Hbest as (_ & p' & Hp' & _ & Hsz & _).
      assert (p' = p) as -> by congruence.
      change (0 + selected_tasksize s) with (selected_tasksize s).
      rewrite Hsz. reflexivity.
Qed.

(** Scenario D, and the same pass again 251 ticks later: the flagged victim
    is still on the list and is killed a second time. *)
Lemma lmk_waiting_ignored_after_deadline_witness :
  let st0 := {| tasks := [user_task 1 8 100 false; user_task 2 8 500 false];
                lowmem_deathpending_timeout := 0 |} in
  let o1 := lowmem_scan K_plain table_AB (reading 2000 0) 7 st0 in
  let o2 := lowmem_scan K_plain table_AB (reading 2000 0) 258 (after o1) in
  (exists p : task_struct,
      tasks (after o1) !! 1%nat = Some p /\ lmk_waiting p = true)
  /\ In (send_sig_SIGKILL 1%nat) (events o2)
  /\ rem o2 = rem o1.
Proof.
  intros st0 o1 o2.
  destruct (lmk_waiting_ignored_after_deadline K_plain table_AB
              (reading 2000 0) 258 (after o1)) as [_ Hagain].
  - reflexivity.
  - apply (Hagain 7 st0 1%nat); [reflexivity|].
    vm_compute. left. reflexivity.
Defined.

(** * Further properties of one pass *)

Lemma lookup_In (ts : list task_struct) : forall (i : nat) (p : task_struct),
  ts !! i = Some p -> In p ts.
Proof.
  induction ts as [|q rest IH]; intros [|i] p Hp; try discriminate Hp.
  - injection Hp as ->. left. reflexivity.
  - right. exact (IH i p Hp).
Qed.

Lemma In_lookup (ts : list task_struct) (p : task_struct) :
  In p ts -> exists i : nat, ts !! i = Some p.
Proof.
  induction ts as [|q rest IH]; intros Hin; [destruct Hin|].
  destruct Hin as [->|Hin]; [exists O; reflexivity|].
  destruct (IH Hin) as [i Hi]. exists (S i). exact Hi.
Qed.

(** The scan is given up only inside the grace period and only on a task
    seen with its flag set. *)
Lemma scan_tasks_none_inv (K : kconfig) (jiffies timeout c : Z)
    (ts : list task_struct) : forall idx s,
  scan_tasks K jiffies timeout c idx ts s = None ->
  time_before_eq (BITS_PER_LONG K) jiffies timeout = true
  /\ exists p : task_struct, In p ts /\ waiting_candidate p = true.
Proof.
  induction ts as [|q rest IH]; intros idx s Hs; [discriminate Hs|].
  rewrite scan_tasks_cons in Hs.
  destruct (waiting_candidate q) eqn:Hq; cbn [andb] in Hs.
  - destruct (time_before_eq (BITS_PER_LONG K) jiffies timeout) eqn:Hg.
    + split; [reflexivity|]. exists q. split; [left; reflexivity|exact Hq].
    + destruct (IH _ _ Hs) as [Hg' _]. discriminate Hg'.
  - destruct (IH _ _ Hs) as [Hg (p & Hin & Hw)].
    split; [exact Hg|]. exists p. split; [right; exact Hin|exact Hw].
Qed.

(** A finished scan selects nothing only when no task is eligible. *)
Lemma scan_tasks_nothing_selected (K : kconfig) (jiffies timeout c : Z)
    (ts : list task_struct) (s : sel_state) :
  scan_tasks K jiffies timeout c O ts (sel_init c) = Some s ->
  selected s = None ->
  forall p : task_struct, In p ts -> eligible c p = false.
Proof.
  intros Hscan Hsel p Hin.
  pose proof (scan_tasks_best K jiffies timeout c ts ts O (sel_init c) s
                (fun k => eq_refl) (best_of_init _ _) Hscan) as Hbest.
  unfold best_of in Hbest. rewrite Hsel in Hbest.
  destruct (In_lookup ts p Hin) as [i Hi].
  apply (Hbest i p); [|exact Hi].
  exact (lookup_lt_Some _ _ _ Hi).
Qed.

Lemma dispatched_intro (K : kconfig) (P : lowmem_params) (vm : vmstat)
    (jiffies : Z) (st : kstate) :
  let c := t_min_score_adj (tier_walk K P vm) in
  c <> OOM_SCORE_ADJ_MAX K + 1 ->
  ~ (time_before_eq (BITS_PER_LONG K) jiffies (lowmem_deathpending_timeout st)
     = true
     /\ exists p : task_struct,
         In p (tasks st) /\ waiting_candidate p = true) ->
  (exists p : task_struct, In p (tasks st) /\ eligible c p = true) ->
  dispatched (lowmem_scan K P vm jiffies st).
Proof.
  intros c Hc Hnodefer (p & Hin & Hel). subst c.
  destruct (lowmem_scan_cases K P vm jiffies st)
    as [[_ [Hsent|[Hnone|(s & Hscan & Hsel)]]]
       |(s & sel & q & _ & _ & _ & _ & _ & Ho)].
  - contradiction.
  - exfalso. apply Hnodefer. exact (scan_tasks_none_inv _ _ _ _ _ _ _ Hnone).
  - rewrite (scan_tasks_nothing_selected _ _ _ _ _ _ Hscan Hsel p Hin) in Hel.
    discriminate Hel.
  - exists sel. rewrite Ho. cbn [events]. apply in_or_app. right. left.
    reflexivity.
Qed.

Lemma dispatched_elim (K : kconfig) (P : lowmem_params) (vm : vmstat)
    (jiffies : Z) (st : kstate) :
  let c := t_min_score_adj (tier_walk K P vm) in
  dispatched (lowmem_scan K P vm jiffies st) ->
  c <> OOM_SCORE_ADJ_MAX K + 1
  /\ ~ (time_before_eq (BITS_PER_LONG K) jiffies
          (lowmem_deathpending_timeout st) = true
        /\ exists p : task_struct,
            In p (tasks st) /\ waiting_candidate p = true)
  /\ exists p : task_struct, In p (tasks st) /\ eligible c p = true.
Proof.
  intros c [sel Hkill].
  destruct (dispatched_inv K P vm jiffies st sel Hkill)
    as (s & p & Hc & Hscan & _ & Hp & Hel & _).
  split; [exact Hc|]. split.
  - intros [Hg Hwait].
    rewrite (scan_tasks_deferred K _ _ _ (tasks st) _ _ Hg Hwait) in Hscan.
    discriminate Hscan.
  - exists p. split; [exact (lookup_In _ _ _ Hp)|exact Hel].
Qed.

(** X1.  A pass sends the kill signal exactly when a tier fired, the pass
    is not given up (no task is seen flagged while the deadline has not
    passed), and at least one task of the list is eligible under the
    cutoff. *)
Theorem dispatch_iff (K : kconfig) (P : lowmem_params) (vm : vmstat)
    (jiffies : Z) (st : kstate) :
  dispatched (lowmem_scan K P vm jiffies st)
  <-> t_min_score_adj (tier_walk K P vm) <> OOM_SCORE_ADJ_MAX K + 1
      /\ ~ (time_before_eq (BITS_PER_LONG K) jiffies
              (lowmem_deathpending_timeout st) = true
            /\ exists p : task_struct,
                In p (tasks st) /\ waiting_candidate p = true)
      /\ exists p : task_struct,
          In p (tasks st)
          /\ eligible (t_min_score_adj (tier_walk K P vm)) p = true.
Proof.
  split.
  - apply dispatched_elim.
  - intros (Hc & Hnodefer & Hel). apply dispatched_intro; assumption.
Qed.

(** X2.  Whatever the outcome, the calls a pass makes are the vendor CMA
    hooks (none without CONFIG_CMA) followed by at most one kill signal,
    and the signal goes to a task of the list. *)
Theorem one_kill_per_pass (K : kconfig) (P : lowmem_params) (vm : vmstat)
    (jiffies : Z) (st : kstate) :
  (CONFIG_CMA K = false -> cma_hooks K P = [])
  /\ (events (lowmem_scan K P vm jiffies st) = cma_hooks K P
      \/ exists sel : nat,
          (sel < length (tasks st))%nat
          /\ events (lowmem_scan K P vm jiffies st)
             = cma_hooks K P ++ [send_sig_SIGKILL sel]).
Proof.
  split.
  - intros HK. unfold cma_hooks. rewrite HK. reflexivity.
  - destruct (lowmem_scan_cases K P vm jiffies st)
      as [[Ho _]|(s & sel & p & _ & _ & _ & Hp & _ & Ho)]; rewrite Ho.
    + left. reflexivity.
    + right. exists sel. split; [|reflexivity].
      exact (lookup_lt_Some _ _ _ Hp).
Qed.

Lemma one_kill_per_pass_witness :
  cma_hooks K_plain table_AB = []
  /\ cma_hooks K_mstar
       {| lowmem_adj := [0; 1; 6; 12; 9]; lowmem_adj_size := 4;
          lowmem_minfree := [1536; 2048; 4096; 16384; 0; 700];
          lowmem_minfree_size := 4 |}
     = [set_early_kill_oom_adj_threshold 9; set_delay_free_min_mem 700].
Proof.
  split; [|reflexivity].
  destruct (one_kill_per_pass K_plain table_AB (reading 0 0) 0
              {| tasks := []; lowmem_deathpending_timeout := 0 |})
    as [Hnone _].
  exact (Hnone eq_refl).
Defined.

(** X3.  A dispatch changes the process list at the victim only: the list
    keeps its length, every other task is as it was, the victim differs
    from what it was by its exit-requested flag alone, and the deadline is
    the tick of the pass plus HZ. *)
Theorem dispatch_frame (K : kconfig) (P : lowmem_params) (vm : vmstat)
    (jiffies : Z) (st : kstate) (sel : nat) :
  let o := lowmem_scan K P vm jiffies st in
  In (send_sig_SIGKILL sel) (events o) ->
  length (tasks (after o)) = length (tasks st)
  /\ (forall j : nat, j <> sel -> tasks (after o) !! j = tasks st !! j)
  /\ (exists p : task_struct,
         tasks st !! sel = Some p
         /\ tasks (after o) !! sel = Some (task_set_lmk_waiting p))
  /\ lowmem_deathpending_timeout (after o)
     = to_ulong (BITS_PER_LONG K) (jiffies + HZ K).
Proof.
  intros o Hkill. subst o.
  destruct (dispatched_inv K P vm jiffies st sel Hkill)
    as (s & p & _ & _ & _ & Hp & _ & Ho).
  rewrite Ho. cbn [after tasks lowmem_deathpending_timeout].
  split; [apply length_insert|]. split; [|split; [|reflexivity]].
  - intros j Hj. apply list_lookup_insert_ne. congruence.
  - exists p. split; [exact Hp|].
    apply list_lookup_insert_eq. exact (lookup_lt_Some _ _ _ Hp).
Qed.

Lemma dispatch_frame_witness :
  let st := {| tasks := [user_task 1 8 100 false; user_task 2 8 500 false];
               lowmem_deathpending_timeout := 0 |} in
  let o := lowmem_scan K_plain table_AB (reading 2000 0) 7 st in
  tasks (after o) !! O = Some (user_task 1 8 100 false)
  /\ lowmem_deathpending_timeout (after o) = 257.
Proof.
  intros st o.
  destruct (dispatch_frame K_plain table_AB (reading 2000 0) 7 st 1%nat)
    as (_ & Hothers & _ & Ht).
  - vm_compute. left. reflexivity.
  - split; [|exact Ht].
    etransitivity; [apply (Hothers O); discriminate | reflexivity].
Defined.

(** X4.  The value returned is strictly positive exactly when a kill was
    dispatched, and always fits a non-negative [int]. *)
Theorem rem_positive_iff_dispatched (K : kconfig) (P : lowmem_params)
    (vm : vmstat) (jiffies : Z) (st : kstate) :
  32 <= BITS_PER_LONG K ->
  let o := lowmem_scan K P vm jiffies st in
  (0 < rem o <-> dispatched o) /\ 0 <= rem o < 2 ^ 31.
Proof.
  intros Hw o. subst o.
  destruct (lowmem_scan_cases K P vm jiffies st)
    as [[Ho _]|(s & sel & p & _ & _ & _ & _ & Hel & Ho)]; rewrite Ho;
    cbn [rem].
  - split; [|lia]. split; [lia|].
    intros [sel Hin]. cbn [events] in Hin.
    exfalso. exact (cma_hooks_no_kill _ _ _ Hin).
  - pose proof (eligible_tasksize_pos _ _ Hel) as Hpos.
    rewrite (tasksize_fits_ulong _ _ Hw Hpos).
    pose proof (to_int_range (mm_rss p)) as Hr. fold (tasksize_of p) in Hr.
    split; [|lia]. split; [|intros _; exact Hpos].
    intros _. exists sel. cbn [events]. apply in_or_app. right. left.
    reflexivity.
Qed.

Lemma rem_positive_iff_dispatched_witness :
  let st := {| tasks := [user_task 1 8 100 false; user_task 2 8 500 false];
               lowmem_deathpending_timeout := 0 |} in
  dispatched (lowmem_scan K_plain table_AB (reading 2000 0) 7 st).
Proof.
  intros st.
  destruct (rem_positive_iff_dispatched K_plain table_AB (reading 2000 0) 7 st)
    as [[Hpos _] _].
  - vm_compute. discriminate.
  - apply Hpos. reflexivity.
Defined.

(** The selected task is not beaten by any eligible task of the list. *)
Lemma selected_dominates (K : kconfig) (jiffies timeout c : Z)
    (ts : list task_struct) (s : sel_state) (sel : nat) (p : task_struct) :
  scan_tasks K jiffies timeout c O ts (sel_init c) = Some s ->
  selected s = Some sel ->
  ts !! sel = Some p ->
  forall q : task_struct, In q ts -> eligible c q = true ->
    oom_score_adj q < oom_score_adj p
    \/ (oom_score_adj q = oom_score_adj p /\ tasksize_of q <= tasksize_of p).
Proof.
  intros Hscan Hsel Hp q Hin Hel.
  pose proof (scan_tasks_best K jiffies timeout c ts ts O (sel_init c) s
                (fun k => eq_refl) (best_of_init _ _) Hscan) as Hbest.
  unfold best_of in Hbest. rewrite Hsel in Hbest.
  destruct Hbest as (_ & p' & Hp' & _ & _ & _ & Hord).
  assert (p' = p) as -> by congruence.
  destruct (In_lookup ts q Hin) as [j Hj].
  destruct (Hord j q (lookup_lt_Some _ _ _ Hj) Hj Hel) as [Hlo Hhi].
  destruct (Nat.lt_trichotomy j sel) as [Hlt|[->|Hgt]].
  - apply worse_not_better. exact (Hlo Hlt).
  - assert (q = p) as -> by congruence. right. split; [reflexivity|lia].
  - exact (Hhi Hgt).
Qed.

(** X5.  The victim of a pass has a priority value at least the priority of
    the table entry that fired, which is one of the entries the lookup works
    on: a task whose priority value is below every priority of the effective
    table is never killed. *)
Theorem victim_not_below_table (K : kconfig) (P : lowmem_params)
    (vm : vmstat) (jiffies : Z) (st : kstate) (sel : nat) (p : task_struct) :
  In (send_sig_SIGKILL sel) (events (lowmem_scan K P vm jiffies st)) ->
  tasks st !! sel = Some p ->
  exists i : nat,
    (i < Z.to_nat (array_size P))%nat
    /\ eff_free K P vm i < cell (lowmem_minfree P) i
    /\ t_min_score_adj (tier_walk K P vm) = cell (lowmem_adj P) i
    /\ cell (lowmem_adj P) i <= oom_score_adj p.
Proof.
  intros Hkill Hp.
  destruct (dispatched_inv K P vm jiffies st sel Hkill)
    as (s & p' & Hc & _ & _ & Hp' & Hel & _).
  assert (p' = p) as -> by congruence.
  assert (Hadj : t_min_score_adj (tier_walk K P vm) <= oom_score_adj p).
  { unfold eligible in Hel.
    apply andb_true_iff in Hel as [Hel _].
    apply andb_true_iff in Hel as [_ Hadj]. apply Z.leb_le. exact Hadj. }
  rewrite tier_walk_run in Hc, Hadj |- *.
  destruct (tier_run_first K P vm (Z.to_nat (array_size P)) _
              (tier_inv_init K P vm))
    as [(i & Hi & Hfire & _ & _ & _ & Hr)|(_ & _ & Hr)];
    cbn [t_i t_min_score_adj] in *.
  - exists i. rewrite Hr in Hadj |- *.
    split; [lia|]. split; [exact Hfire|]. split; [reflexivity|exact Hadj].
  - contradiction.
Qed.

(** With the table of the source a task of negative priority value is safe:
    here the only task with a positive size and the highest pressure. *)
Lemma victim_not_below_table_witness :
  exists i : nat,
    (i < 4)%nat
    /\ cell (lowmem_adj lowmem_params_init) i <= 900.
Proof.
  destruct (victim_not_below_table K_plain lowmem_params_init (reading 0 0) 7
              {| tasks := [user_task 1 (-900) 100 false;
                           user_task 2 900 30 false];
                 lowmem_deathpending_timeout := 0 |}
              1%nat (user_task 2 900 30 false))
    as (i & Hi & _ & _ & Hle).
  - vm_compute. left. reflexivity.
  - reflexivity.
  - exists i. split; [exact Hi|exact Hle].
Defined.

(** X6.  The value a pass returns, and whether it kills, do not depend on
    the order in which the processes are listed. *)
Theorem rem_permutation_invariant (K : kconfig) (P : lowmem_params)
    (vm : vmstat) (jiffies : Z) (st st' : kstate) :
  Permutation (tasks st) (tasks st') ->
  lowmem_deathpending_timeout st' = lowmem_deathpending_timeout st ->
  let o := lowmem_scan K P vm jiffies st in
  let o' := lowmem_scan K P vm jiffies st' in
  rem o' = rem o /\ (dispatched o' <-> dispatched o).
Proof.
  intros Hperm Ht o o'.
  assert (Hmove : forall a b : kstate,
             Permutation (tasks a) (tasks b) ->
             lowmem_deathpending_timeout b = lowmem_deathpending_timeout a ->
             dispatched (lowmem_scan K P vm jiffies a) ->
             dispatched (lowmem_scan K P vm jiffies b)).
  { intros a b Hab Htab Hd.
    destruct (dispatched_elim K P vm jiffies a Hd) as (Hc & Hnd & q & Hq & Hel).
    apply dispatched_intro; [exact Hc| |].
    - intros [Hg (w & Hw & Hwait)]. apply Hnd. rewrite <- Htab.
      split; [exact Hg|]. exists w. split; [|exact Hwait].
      exact (Permutation_in _ (Permutation_sym Hab) Hw).
    - exists q. split; [exact (Permutation_in _ Hab Hq)|exact Hel]. }
  assert (Hiff : dispatched o' <-> dispatched o).
  { split.
    - apply Hmove; [apply Permutation_sym; exact Hperm|symmetry; exact Ht].
    - apply Hmove; assumption. }
  split; [|exact Hiff]. subst o o'.
  destruct (lowmem_scan_cases K P vm jiffies st)
    as [[Ho _]|(s & sel & p & _ & Hscan & Hsel & Hp & Hel & Ho)];
    destruct (lowmem_scan_cases K P vm jiffies st')
      as [[Ho' _]|(s' & sel' & p' & _ & Hscan' & Hsel' & Hp' & Hel' & Ho')].
  - rewrite Ho, Ho'. reflexivity.
  - exfalso.
    assert (Hd : dispatched (lowmem_scan K P vm jiffies st)).
    { apply Hiff. exists sel'. rewrite Ho'. cbn [events].
      apply in_or_app. right. left. reflexivity. }
    destruct Hd as [k Hk]. rewrite Ho in Hk.
    exact (cma_hooks_no_kill _ _ _ Hk).
  - exfalso.
    assert (Hd : dispatched (lowmem_scan K P vm jiffies st')).
    { apply Hiff. exists sel. rewrite Ho. cbn [events].
      apply in_or_app. right. left. reflexivity. }
    destruct Hd as [k Hk]. rewrite Ho' in Hk.
    exact (cma_hooks_no_kill _ _ _ Hk).
  - rewrite Ho, Ho'. cbn [rem]. f_equal.
    pose proof (selected_dominates _ _ _ _ _ _ _ _ Hscan Hsel Hp p'
                  (Permutation_in _ (Permutation_sym Hperm)
                     (lookup_In _ _ _ Hp')) Hel') as H1.
    pose proof (selected_dominates _ _ _ _ _ _ _ _ Hscan' Hsel' Hp' p
                  (Permutation_in _ Hperm (lookup_In _ _ _ Hp)) Hel) as H2.
    lia.
Qed.

Lemma rem_permutation_invariant_witness :
  rem (lowmem_scan K_plain table_AB (reading 2000 0) 7
         {| tasks := [user_task 2 8 500 false; user_task 1 8 100 false];
            lowmem_deathpending_timeout := 0 |})
  = rem (lowmem_scan K_plain table_AB (reading 2000 0) 7
           {| tasks := [user_task 1 8 100 false; user_task 2 8 500 false];
              lowmem_deathpending_timeout := 0 |}).
Proof.
  apply (rem_permutation_invariant K_plain table_AB (reading 2000 0) 7
           {| tasks := [user_task 1 8 100 false; user_task 2 8 500 false];
              lowmem_deathpending_timeout := 0 |}
           {| tasks := [user_task 2 8 500 false; user_task 1 8 100 false];
              lowmem_deathpending_timeout := 0 |}).
  - apply perm_swap.
  - reflexivity.
Defined.

(** X7.  [lowmem_scan] never clears an exit-requested flag: a task flagged
    before a pass is flagged after it, whatever the pass does. *)
Theorem flags_never_cleared (K : kconfig) (P : lowmem_params) (vm : vmstat)
    (jiffies : Z) (st : kstate) (j : nat) (p : task_struct) :
  tasks st !! j = Some p ->
  lmk_waiting p = true ->
  exists p' : task_struct,
    tasks (after (lowmem_scan K P vm jiffies st)) !! j = Some p'
    /\ lmk_waiting p' = true
    /\ pid p' = pid p /\ oom_score_adj p' = oom_score_adj p
    /\ mm_rss p' = mm_rss p.
Proof.
  intros Hp Hflag.
  destruct (lowmem_scan_cases K P vm jiffies st)
    as [[Ho _]|(s & sel & q & _ & _ & _ & Hq & _ & Ho)]; rewrite Ho;
    cbn [after tasks].
  - exists p. auto.
  - destruct (decide (j = sel)) as [->|Hne].
    + assert (q = p) as -> by congruence.
      exists (task_set_lmk_waiting p). split; [|auto].
      apply list_lookup_insert_eq. exact (lookup_lt_Some _ _ _ Hp).
    + exists p. split; [|auto].
      rewrite list_lookup_insert_ne by congruence. exact Hp.
Qed.

Lemma flags_never_cleared_witness :
  exists p' : task_struct,
    tasks (after (lowmem_scan K_plain table_AB (reading 2000 0) 300
                    {| tasks := [user_task 1 8 100 true;
                                 user_task 2 8 500 false];
                       lowmem_deathpending_timeout := 257 |})) !! O
    = Some p'
    /\ lmk_waiting p' = true.
Proof.
  destruct (flags_never_cleared K_plain table_AB (reading 2000 0) 300
              {| tasks := [user_task 1 8 100 true; user_task 2 8 500 false];
                 lowmem_deathpending_timeout := 257 |}
              O (user_task 1 8 100 true) eq_refl eq_refl)
    as (p' & Hp' & Hflag & _).
  exists p'. split; [exact Hp'|exact Hflag].
Defined.

(** ** The length of the cooldown *)

Lemma pow2_double (w : Z) : 0 < w -> 2 ^ w = 2 * 2 ^ (w - 1).
Proof.
  intros Hw. replace w with (1 + (w - 1)) at 1 by lia.
  rewrite Z.pow_add_r by lia. reflexivity.
Qed.

(** For half a turn of the tick counter around the deadline the test is the
    plain comparison of the elapsed ticks with the grace period. *)
Lemma time_before_eq_window (w now d hz : Z) :
  0 < w -> hz - 2 ^ (w - 1) < d <= hz + 2 ^ (w - 1) ->
  time_before_eq w (to_ulong w (now + d)) (to_ulong w (now + hz))
  = (d <=? hz).
Proof.
  intros Hw Hd. unfold time_before_eq.
  rewrite to_long_ulong_sub by exact Hw.
  replace (now + hz - (now + d)) with (hz - d) by lia.
  rewrite to_long_small by lia.
  destruct (Z.leb_spec 0 (hz - d)); destruct (Z.leb_spec d hz);
    try reflexivity; lia.
Qed.

(** During the other half turn the deadline reads as not yet passed. *)
Lemma time_before_eq_stale (w now d hz : Z) :
  0 < w -> hz + 2 ^ (w - 1) < d <= hz + 2 ^ w ->
  time_before_eq w (to_ulong w (now + d)) (to_ulong w (now + hz)) = true.
Proof.
  intros Hw Hd. unfold time_before_eq.
  rewrite to_long_ulong_sub by exact Hw.
  replace (now + hz - (now + d)) with (hz - d) by lia.
  pose proof (pow2_double w Hw) as H2.
  assert (Hp : 0 < 2 ^ (w - 1)) by (apply Z.pow_pos_nonneg; lia).
  unfold to_long.
  rewrite <- (Z_mod_plus_full (hz - d + 2 ^ (w - 1)) 1 (2 ^ w)).
  rewrite Z.mod_small by lia.
  apply Z.leb_le. lia.
Qed.

(** X8.  The cooldown lasts HZ ticks and no longer: on a state whose
    deadline was set at tick [now], a pass at tick [now + d] with
    [HZ < d <= HZ + 2^(BITS_PER_LONG-1)] is never given up; it returns and
    signals as if no task were flagged. *)
Theorem cooldown_over_after_HZ (K : kconfig) (P : lowmem_params)
    (vm : vmstat) (now d : Z) (st : kstate) :
  0 < BITS_PER_LONG K ->
  lowmem_deathpending_timeout st = to_ulong (BITS_PER_LONG K) (now + HZ K) ->
  HZ K < d <= HZ K + 2 ^ (BITS_PER_LONG K - 1) ->
  let jiffies := to_ulong (BITS_PER_LONG K) (now + d) in
  let o := lowmem_scan K P vm jiffies st in
  let o0 := lowmem_scan K P vm jiffies (clear_flags st) in
  rem o = rem o0 /\ events o = events o0
  /\ (dispatched o
      <-> t_min_score_adj (tier_walk K P vm) <> OOM_SCORE_ADJ_MAX K + 1
          /\ exists p : task_struct,
              In p (tasks st)
              /\ eligible (t_min_score_adj (tier_walk K P vm)) p = true).
Proof.
  intros Hw Ht Hd jiffies o o0.
  assert (Hexp : time_before_eq (BITS_PER_LONG K) jiffies
                   (lowmem_deathpending_timeout st) = false).
  { subst jiffies. rewrite Ht, time_before_eq_window by lia.
    apply Z.leb_gt. lia. }
  destruct (lowmem_scan_expired K P vm jiffies st Hexp) as (Hrem & Hev & _).
  split; [exact Hrem|]. split; [exact Hev|]. subst o. split.
  - intros Hdis.
    destruct (dispatched_elim K P vm jiffies st Hdis) as (Hc & _ & Hel).
    split; assumption.
  - intros [Hc Hel]. apply dispatched_intro; [exact Hc| |exact Hel].
    intros [Hg _]. rewrite Hexp in Hg. discriminate Hg.
Qed.

(** One tick after the grace period the flagged victim no longer holds the
    pass up. *)
Lemma cooldown_over_after_HZ_witness :
  dispatched
    (lowmem_scan K_plain table_AB (reading 2000 0) 258
       {| tasks := [user_task 1 8 100 false; user_task 2 8 500 true];
          lowmem_deathpending_timeout := 257 |}).
Proof.
  destruct (cooldown_over_after_HZ K_plain table_AB (reading 2000 0) 7 251
              {| tasks := [user_task 1 8 100 false; user_task 2 8 500 true];
                 lowmem_deathpending_timeout := 257 |})
    as (_ & _ & Hdis).
  - reflexivity.
  - reflexivity.
  - vm_compute. split; [reflexivity|discriminate].
  - apply Hdis. split; [vm_compute; discriminate|].
    exists (user_task 1 8 100 false). split; [left; reflexivity|reflexivity].
Defined.

(** X9.  A deadline that is never renewed reads as pending again once the
    tick counter is more than half a turn past it: for
    [HZ + 2^(BITS_PER_LONG-1) < d <= HZ + 2^BITS_PER_LONG] a pass at tick
    [now + d] that meets a flagged task is given up like a pass inside the
    grace period. *)
Theorem stale_deadline_defers (K : kconfig) (P : lowmem_params)
    (vm : vmstat) (now d : Z) (st : kstate) :
  0 < BITS_PER_LONG K ->
  lowmem_deathpending_timeout st = to_ulong (BITS_PER_LONG K) (now + HZ K) ->
  HZ K + 2 ^ (BITS_PER_LONG K - 1) < d <= HZ K + 2 ^ BITS_PER_LONG K ->
  (exists p : task_struct, In p (tasks st) /\ waiting_candidate p = true) ->
  lowmem_scan K P vm (to_ulong (BITS_PER_LONG K) (now + d)) st
  = {| rem := 0; after := st; events := cma_hooks K P |}.
Proof.
  intros Hw Ht Hd Hwait.
  apply not_dispatched_inv. intros Hdis.
  destruct (dispatched_elim K P vm _ st Hdis) as (_ & Hnd & _).
  apply Hnd. split; [|exact Hwait].
  rewrite Ht. apply time_before_eq_stale; assumption.
Qed.

(** A 32-bit build, 2^31 + 200 ticks after the kill. *)
Lemma stale_deadline_defers_witness :
  rem (lowmem_scan K_mstar table_AB (reading 0 0) 2147483855
         {| tasks := [user_task 1 8 100 true; user_task 2 8 500 false];
            lowmem_deathpending_timeout := 107 |}) = 0.
Proof.
  change 2147483855
    with (to_ulong (BITS_PER_LONG K_mstar) (7 + 2147483848)).
  rewrite (stale_deadline_defers K_mstar table_AB (reading 0 0) 7 2147483848
             {| tasks := [user_task 1 8 100 true; user_task 2 8 500 false];
                lowmem_deathpending_timeout := 107 |}).
  - reflexivity.
  - reflexivity.
  - reflexivity.
  - vm_compute. split; [reflexivity|discriminate].
  - exists (user_task 1 8 100 true). split; [left; reflexivity|reflexivity].
Defined.

(** ** More about the tier lookup *)

(** X10.  More free memory never makes an earlier tier fire: when the
    quantity compared at every entry is no smaller under one reading than
    under another, the walk stops at the same entry or later; for a table
    whose priorities ascend and do not exceed the sentinel the cutoff is
    then no lower. *)
Theorem walk_monotone_in_free (K : kconfig) (P : lowmem_params)
    (vm vm' : vmstat) :
  (forall j : nat, (j < Z.to_nat (array_size P))%nat ->
                   eff_free K P vm j <= eff_free K P vm' j) ->
  (t_i (tier_walk K P vm) <= t_i (tier_walk K P vm'))%nat
  /\ ((forall i j : nat, (i <= j < Z.to_nat (array_size P))%nat ->
                         cell (lowmem_adj P) i <= cell (lowmem_adj P) j) ->
      (forall j : nat, (j < Z.to_nat (array_size P))%nat ->
                       cell (lowmem_adj P) j <= OOM_SCORE_ADJ_MAX K + 1) ->
      t_min_score_adj (tier_walk K P vm)
      <= t_min_score_adj (tier_walk K P vm')).
Proof.
  intros Hle. rewrite !tier_walk_run.
  destruct (tier_run_first K P vm (Z.to_nat (array_size P)) _
              (tier_inv_init K P vm))
    as [(i & Hi & Hfire & Hbefore & Hri & _ & Hr)|(Hnone & Hri & Hr)];
    destruct (tier_run_first K P vm' (Z.to_nat (array_size P)) _
                (tier_inv_init K P vm'))
      as [(i' & Hi' & Hfire' & Hbefore' & Hri' & _ & Hr')
         |(Hnone' & Hri' & Hr')];
    cbn [t_i t_min_score_adj] in *; rewrite Hri, Hri', Hr, Hr'.
  - assert (Hii : (i <= i')%nat).
    { destruct (Nat.le_gt_cases i i') as [Hok|Hlt]; [exact Hok|].
      specialize (Hbefore i' ltac:(lia)). specialize (Hle i' ltac:(lia)).
      lia. }
    split; [exact Hii|]. intros Hsorted _. apply Hsorted. lia.
  - split; [lia|]. intros _ Hmax. apply Hmax. lia.
  - exfalso. specialize (Hnone i' ltac:(lia)). specialize (Hle i' ltac:(lia)).
    lia.
  - split; [lia|]. intros _ _. lia.
Qed.

(** The table of the source under 1000 and under 3000 free pages. *)
Lemma walk_monotone_in_free_witness :
  (t_i (tier_walk K_plain lowmem_params_init (reading 1000 0))
   <= t_i (tier_walk K_plain lowmem_params_init (reading 3000 0)))%nat.
Proof.
  destruct (walk_monotone_in_free K_plain lowmem_params_init
              (reading 1000 0) (reading 3000 0)) as [Hi _].
  - intros j _. vm_compute. discriminate.
  - exact Hi.
Defined.

Lemma to_int_decomp (z : Z) : exists k : Z, to_int z = z + 2 ^ 32 * k.
Proof.
  exists (- ((z + 2 ^ 31) / 2 ^ 32)). unfold to_int.
  pose proof (Z.div_mod (z + 2 ^ 31) (2 ^ 32) ltac:(lia)). lia.
Qed.

Lemma to_int_add_mul (z k : Z) : to_int (z + 2 ^ 32 * k) = to_int z.
Proof.
  unfold to_int.
  replace (z + 2 ^ 32 * k + 2 ^ 31) with (z + 2 ^ 31 + k * 2 ^ 32) by lia.
  rewrite Z_mod_plus_full. reflexivity.
Qed.

Lemma zero_adj_count_first_only (adj : list Z) (i : nat) :
  cell adj O = 0 ->
  (forall j : nat, (0 < j <= i)%nat -> cell adj j <> 0) ->
  zero_adj_count adj (S i) = 1.
Proof.
  intros H0 Hnz. induction i as [|i IH].
  - cbn [zero_adj_count]. rewrite H0. reflexivity.
  - change (zero_adj_count adj (S (S i)))
      with (zero_adj_count adj (S i)
            + (if cell adj (S i) =? 0 then 1 else 0)).
    rewrite IH by (intros j Hj; apply Hnz; lia).
    destruct (Z.eqb_spec (cell adj (S i)) 0) as [He|_]; [|reflexivity].
    exfalso. exact (Hnz (S i) ltac:(lia) He).
Qed.

(** X11.  With the vendor policy and a table whose first entry, and it
    alone, has priority 0 (as the table of the source has), the active file
    pages subtracted before the loop are added back at the first entry and
    stay added: every threshold is compared with
    [other_free - free_cma + other_file] (plus the ION pages under
    CONFIG_MP_MMA_ENABLE). *)
Theorem vendor_active_file_cancels (K : kconfig) (P : lowmem_params)
    (vm : vmstat) :
  CONFIG_MP_Android_MSTAR_ADJUST_LOW_MEM_KILLER_POLICY K = true ->
  cell (lowmem_adj P) O = 0 ->
  (forall j : nat, (0 < j < Z.to_nat (array_size P))%nat ->
                   cell (lowmem_adj P) j <> 0) ->
  t_min_score_adj (tier_walk K P vm)
  = TierTable_lookup K P
      (to_int (other_free_of vm - free_cma_of K vm + other_file_of vm
               + (if CONFIG_MP_MMA_ENABLE K
                  then total_ion_system_pages vm else 0))).
Proof.
  intros HK H0 Hnz. rewrite tier_walk_lookup_at.
  unfold TierTable_lookup, TierTable_lookup_at.
  apply spec_lookup_from_ext. intros j Hj. unfold eff_free. rewrite HK.
  rewrite zero_adj_count_first_only;
    [|exact H0|intros k Hk; apply Hnz; lia].
  rewrite Z.mul_1_r. unfold total_free_of. rewrite HK.
  unfold int_add, int_sub.
  set (a := other_free_of vm - free_cma_of K vm).
  set (b := other_file_of vm - active_file_of vm).
  destruct (to_int_decomp a) as [k1 E1].
  destruct (to_int_decomp b) as [k2 E2]. rewrite E1, E2.
  destruct (to_int_decomp (a + 2 ^ 32 * k1 + (b + 2 ^ 32 * k2))) as [k3 E3].
  rewrite E3.
  destruct (CONFIG_MP_MMA_ENABLE K).
  - destruct (to_int_decomp (total_ion_system_pages vm)) as [k4 E4].
    rewrite E4.
    match goal with
    | |- to_int (to_int ?x + _) = _ => destruct (to_int_decomp x) as [k5 E5]
    end.
    rewrite E5.
    match goal with
    | |- _ = to_int ?r =>
        apply eq_trans with (to_int (r + 2 ^ 32 * (k1 + k2 + k3 + k4 + k5)));
        [apply (f_equal to_int); subst a b; lia | apply to_int_add_mul]
    end.
  - match goal with
    | |- _ = to_int ?r =>
        apply eq_trans with (to_int (r + 2 ^ 32 * (k1 + k2 + k3)));
        [apply (f_equal to_int); subst a b; lia | apply to_int_add_mul]
    end.
Qed.

(** 1000 free pages and 1000 file pages, 900 of them active, against the
    table of the source: 2000 pages count, and the third tier fires. *)
Lemma vendor_active_file_cancels_witness :
  t_min_score_adj
    (tier_walk K_mstar lowmem_params_init (reading_active 1000 1000 900))
  = TierTable_lookup K_mstar lowmem_params_init 2000.
Proof.
  rewrite (vendor_active_file_cancels K_mstar lowmem_params_init
             (reading_active 1000 1000 900)).
  - reflexivity.
  - reflexivity.
  - reflexivity.
  - intros j Hj.
    assert (j = 1%nat \/ j = 2%nat \/ j = 3%nat) as [-> | [-> | ->]]
      by (vm_compute in Hj; lia); vm_compute; discriminate.
Defined.

(** * The autodetection of legacy tables *)

Lemma to_short_small (z : Z) : - 2 ^ 15 <= z < 2 ^ 15 -> to_short z = z.
Proof. intros Hz. unfold to_short. rewrite Z.mod_small; lia. Qed.

(** The conversion where nothing wraps: 1000/17 of the legacy value,
    truncated towards zero, except for the top value 15. *)
Lemma conv_linux (K : kconfig) (C : oom_h) (x : Z) :
  linux_oom_h K C -> -557 <= x <= 557 ->
  lowmem_oom_adj_to_oom_score_adj K C x
  = if x =? 15 then 1000 else Z.quot (x * 1000) 17.
Proof.
  intros (Hmax & Hdis & Hscore) Hx.
  unfold lowmem_oom_adj_to_oom_score_adj. rewrite Hmax, Hdis, Hscore.
  destruct (x =? 15); [reflexivity|].
  rewrite (to_int_small (x * 1000)) by lia.
  change (to_int (- -17)) with 17.
  apply to_short_small.
  pose proof (Z.quot_rem' (x * 1000) 17) as Hq.
  pose proof (Z.rem_bound_abs (x * 1000) 17 ltac:(lia)) as Hr.
  lia.
Qed.

(** X12.  With the constants of the kernel header the conversion maps the
    legacy range [-17, 15] into [-1000, 1000], its ends to the ends, 0 to 0
    and nothing else to 0, and keeps the sign. *)
Theorem conversion_range (K : kconfig) (C : oom_h) (x : Z) :
  linux_oom_h K C -> -17 <= x <= 15 ->
  let y := lowmem_oom_adj_to_oom_score_adj K C x in
  -1000 <= y <= 1000
  /\ (y = 0 <-> x = 0) /\ (0 < y <-> 0 < x)
  /\ (x = -17 -> y = -1000) /\ (x = 15 -> y = 1000).
Proof.
  intros Hlinux Hx y. subst y. rewrite (conv_linux K C x Hlinux) by lia.
  destruct (Z.eqb_spec x 15) as [->|Hne].
  - repeat split; intros; lia.
  - Z.to_euclidean_division_equations. repeat split; intros; lia.
Qed.

Lemma conversion_range_witness :
  lowmem_oom_adj_to_oom_score_adj K_plain C_linux (-17) = -1000.
Proof.
  destruct (conversion_range K_plain C_linux (-17)) as (_ & _ & _ & Hlo & _).
  - repeat split.
  - lia.
  - exact (Hlo eq_refl).
Defined.

Lemma conv_strict (K : kconfig) (C : oom_h) (x y : Z) :
  linux_oom_h K C -> -557 <= x -> x < y -> y <= 15 ->
  lowmem_oom_adj_to_oom_score_adj K C x
  < lowmem_oom_adj_to_oom_score_adj K C y.
Proof.
  intros Hlinux Hx Hxy Hy.
  rewrite (conv_linux K C x Hlinux), (conv_linux K C y Hlinux) by lia.
  destruct (Z.eqb_spec x 15) as [->|Hnx]; [lia|].
  destruct (Z.eqb_spec y 15) as [->|Hny];
    Z.to_euclidean_division_equations; lia.
Qed.

(** X13.  The conversion is strictly increasing on [-557, 15] (below -557
    the result no longer fits a [short]), and not beyond: 16 and 17 convert
    to no more than 15 does. *)
Theorem conversion_strictly_increasing (K : kconfig) (C : oom_h) (x y : Z) :
  linux_oom_h K C -> -557 <= x -> x < y -> y <= 15 ->
  lowmem_oom_adj_to_oom_score_adj K C x
  < lowmem_oom_adj_to_oom_score_adj K C y
  /\ lowmem_oom_adj_to_oom_score_adj K C 16
     < lowmem_oom_adj_to_oom_score_adj K C 15
  /\ lowmem_oom_adj_to_oom_score_adj K C 17
     = lowmem_oom_adj_to_oom_score_adj K C 15.
Proof.
  intros Hlinux Hx Hxy Hy. split; [apply conv_strict; assumption|].
  rewrite !(conv_linux K C _ Hlinux) by lia. split; reflexivity.
Qed.

Lemma conversion_strictly_increasing_witness :
  lowmem_oom_adj_to_oom_score_adj K_plain C_linux 6
  < lowmem_oom_adj_to_oom_score_adj K_plain C_linux 12.
Proof.
  destruct (conversion_strictly_increasing K_plain C_linux 6 12) as [Hlt _].
  - repeat split.
  - lia.
  - lia.
  - lia.
  - exact Hlt.
Defined.

(** ** The converting loop *)

Lemma cell_nil (j : nat) : cell [] j = 0.
Proof. destruct j; reflexivity. Qed.

Lemma cell_cons_S (x : Z) (a : list Z) (j : nat) :
  cell (x :: a) (S j) = cell a j.
Proof. reflexivity. Qed.

Lemma cell_cell_set (i : nat) : forall (a : list Z) (j : nat) (v : Z),
  cell (cell_set a i v) j = if decide (j = i) then v else cell a j.
Proof.
  induction i as [|i IH]; intros a j v.
  - destruct a as [|x rest], j as [|j]; cbn [cell_set];
      destruct (decide _) as [He|Hne]; try reflexivity; try lia;
      rewrite ?cell_cons_S, ?cell_nil; reflexivity.
  - destruct a as [|x rest], j as [|j]; cbn [cell_set];
      rewrite ?cell_cons_S, ?IH;
      repeat destruct (decide _); try reflexivity; try lia;
      rewrite ?cell_nil; reflexivity.
Qed.

(** The loop converts the cells [i .. i+n-1] and leaves the others. *)
Lemma autodetect_loop_cells (K : kconfig) (C : oom_h) (n : nat) :
  forall (i : nat) (adj : list Z) (j : nat),
    cell (autodetect_loop K C n i adj) j
    = if (i <=? j)%nat && (j <? i + n)%nat
      then lowmem_oom_adj_to_oom_score_adj K C (cell adj j)
      else cell adj j.
Proof.
  induction n as [|n IH]; intros i adj j; cbn [autodetect_loop].
  - destruct (Nat.leb_spec i j); destruct (Nat.ltb_spec j (i + 0));
      try reflexivity; lia.
  - rewrite IH, !cell_cell_set.
    destruct (decide (j = i)) as [->|Hne].
    + destruct (Nat.leb_spec (S i) i); [lia|]. cbn [andb].
      destruct (Nat.leb_spec i i); [|lia].
      destruct (Nat.ltb_spec i (i + S n)); [reflexivity|lia].
    + destruct (Nat.leb_spec (S i) j); destruct (Nat.leb_spec i j);
        destruct (Nat.ltb_spec j (S i + n));
        destruct (Nat.ltb_spec j (i + S n)); try reflexivity; lia.
Qed.

(** What [lowmem_autodetect_oom_adj_values] leaves behind: the thresholds
    and both counts always; the priorities either as they were or, when the
    last one is a legacy value that converts to more than
    [OOM_ADJUST_MAX], converted over the whole table. *)
Lemma autodetect_shape (K : kconfig) (C : oom_h) (P : lowmem_params) :
  let P' := lowmem_autodetect_oom_adj_values K C P in
  let n := Z.to_nat (autodetect_size P) in
  let last := cell (lowmem_adj P) (Z.to_nat (autodetect_size P - 1)) in
  lowmem_minfree P' = lowmem_minfree P
  /\ lowmem_adj_size P' = lowmem_adj_size P
  /\ lowmem_minfree_size P' = lowmem_minfree_size P
  /\ ((P' = P
       /\ (autodetect_size P <= 0 \/ OOM_ADJUST_MAX C < last
           \/ lowmem_oom_adj_to_oom_score_adj K C last <= OOM_ADJUST_MAX C))
      \/ (0 < autodetect_size P /\ last <= OOM_ADJUST_MAX C
          /\ OOM_ADJUST_MAX C < lowmem_oom_adj_to_oom_score_adj K C last
          /\ forall j : nat,
              cell (lowmem_adj P') j
              = if (j <? n)%nat
                then lowmem_oom_adj_to_oom_score_adj K C (cell (lowmem_adj P) j)
                else cell (lowmem_adj P) j)).
Proof.
  intros P' n last. subst P' n last.
  unfold lowmem_autodetect_oom_adj_values.
  destruct (Z.leb_spec (autodetect_size P) 0) as [Hn|Hn];
    [repeat split; left; split; [reflexivity|lia]|].
  destruct (Z.ltb_spec (OOM_ADJUST_MAX C)
              (cell (lowmem_adj P) (Z.to_nat (autodetect_size P - 1))))
    as [Hlast|Hlast];
    [repeat split; left; split; [reflexivity|lia]|].
  destruct (Z.leb_spec
              (lowmem_oom_adj_to_oom_score_adj K C
                 (cell (lowmem_adj P) (Z.to_nat (autodetect_size P - 1))))
              (OOM_ADJUST_MAX C)) as [Hconv|Hconv];
    [repeat split; left; split; [reflexivity|lia]|].
  cbn [lowmem_minfree lowmem_adj_size lowmem_minfree_size lowmem_adj].
  repeat split; right. repeat split; try assumption.
  intros j. rewrite autodetect_loop_cells. reflexivity.
Qed.

Lemma autodetect_size_last (P : lowmem_params) :
  0 < autodetect_size P ->
  Z.to_nat (autodetect_size P - 1)
  = (Z.to_nat (autodetect_size P) - 1)%nat
  /\ (Z.to_nat (autodetect_size P - 1) < Z.to_nat (autodetect_size P))%nat.
Proof. intros Hn. lia. Qed.

(** X14.  With the constants of the kernel header, and a last priority that
    is not below -557: a table whose last priority is between 1 and 15 is
    taken for a legacy table and every one of its priorities is converted,
    the cells beyond the table being left alone; a table whose last
    priority is above 15, or not positive, is left as it is.  Thresholds
    and counts are never touched. *)
Theorem autodetect_converts_legacy (K : kconfig) (C : oom_h)
    (P : lowmem_params) :
  linux_oom_h K C ->
  0 < autodetect_size P ->
  -557 <= cell (lowmem_adj P) (Z.to_nat (autodetect_size P - 1)) ->
  let last := cell (lowmem_adj P) (Z.to_nat (autodetect_size P - 1)) in
  let P' := lowmem_autodetect_oom_adj_values K C P in
  (1 <= last <= 15 ->
   forall j : nat,
     cell (lowmem_adj P') j
     = if (j <? Z.to_nat (autodetect_size P))%nat
       then lowmem_oom_adj_to_oom_score_adj K C (cell (lowmem_adj P) j)
       else cell (lowmem_adj P) j)
  /\ (last <= 0 \/ 15 < last -> P' = P)
  /\ lowmem_minfree P' = lowmem_minfree P
  /\ lowmem_adj_size P' = lowmem_adj_size P
  /\ lowmem_minfree_size P' = lowmem_minfree_size P.
Proof.
  intros Hlinux Hn Hlo last P'.
  destruct (autodetect_shape K C P) as (Hmin & Hasz & Hmsz & Hshape).
  fold last in Hshape. fold P' in Hmin, Hasz, Hmsz, Hshape.
  pose proof Hlinux as (Hmax & _ & _).
  split; [|split; [|auto]].
  - intros Hlast.
    destruct Hshape as [[_ Hwhy]|(_ & _ & _ & Hcells)]; [|exact Hcells].
    exfalso. rewrite Hmax in Hwhy.
    rewrite (conv_linux K C last Hlinux) in Hwhy by lia.
    destruct (Z.eqb_spec last 15); [lia|].
    revert Hwhy. Z.to_euclidean_division_equations. lia.
  - intros Hlast.
    destruct Hshape as [[Hsame _]|(_ & Hle & Hconv & _)]; [exact Hsame|].
    exfalso. rewrite Hmax in Hle, Hconv.
    rewrite (conv_linux K C last Hlinux) in Hconv by (fold last in Hlo; lia).
    destruct (Z.eqb_spec last 15); [lia|].
    revert Hconv. Z.to_euclidean_division_equations. lia.
Qed.

(** The legacy form of the table of the source and what it becomes. *)
Lemma autodetect_converts_legacy_witness :
  let P := table [0; 1; 6; 12] [1536; 2048; 4096; 16384] in
  let P' := lowmem_autodetect_oom_adj_values K_plain C_linux P in
  cell (lowmem_adj P') 1 = 58 /\ cell (lowmem_adj P') 2 = 352
  /\ cell (lowmem_adj P') 3 = 705 /\ cell (lowmem_adj P') 4 = 0.
Proof.
  intros P P'. subst P'.
  destruct (autodetect_converts_legacy K_plain C_linux P) as [Hconv _].
  - repeat split.
  - reflexivity.
  - vm_compute. discriminate.
  - assert (Hlast : 1 <= 12 <= 15) by lia.
    repeat split;
      (etransitivity; [exact (Hconv Hlast _)|reflexivity]).
Defined.

(** X15.  Running the autodetection a second time changes nothing: what it
    converts has a last priority above [OOM_ADJUST_MAX], which it takes for
    a table already in the new scale.  This holds for any values of the
    header's constants. *)
Theorem autodetect_idempotent (K : kconfig) (C : oom_h) (P : lowmem_params) :
  lowmem_autodetect_oom_adj_values K C
    (lowmem_autodetect_oom_adj_values K C P)
  = lowmem_autodetect_oom_adj_values K C P.
Proof.
  pose proof (autodetect_shape K C P) as Hshape. cbv zeta in Hshape.
  destruct Hshape as (_ & Hasz & _ & [[Hsame _]|(Hn & _ & Hconv & Hcells)]).
  - rewrite Hsame. exact Hsame.
  - remember (lowmem_autodetect_oom_adj_values K C P) as P' eqn:HP'.
    assert (Hsz : autodetect_size P' = autodetect_size P)
      by (unfold autodetect_size; rewrite Hasz; reflexivity).
    unfold lowmem_autodetect_oom_adj_values. rewrite Hsz.
    destruct (Z.leb_spec (autodetect_size P) 0); [reflexivity|].
    rewrite Hcells.
    destruct (autodetect_size_last P Hn) as [_ Hlt].
    destruct (Nat.ltb_spec (Z.to_nat (autodetect_size P - 1))
                (Z.to_nat (autodetect_size P))); [|lia].
    destruct (Z.ltb_spec (OOM_ADJUST_MAX C)
                (lowmem_oom_adj_to_oom_score_adj K C
                   (cell (lowmem_adj P) (Z.to_nat (autodetect_size P - 1)))));
      [reflexivity|lia].
Qed.

(** X16.  With the constants of the kernel header, a table whose priorities
    ascend strictly from a first one not below -557 still ascends strictly
    after the autodetection, converted or not. *)
Theorem autodetect_keeps_order (K : kconfig) (C : oom_h)
    (P : lowmem_params) :
  linux_oom_h K C ->
  -557 <= cell (lowmem_adj P) O ->
  (forall i j : nat, (i < j < Z.to_nat (autodetect_size P))%nat ->
                     cell (lowmem_adj P) i < cell (lowmem_adj P) j) ->
  forall i j : nat, (i < j < Z.to_nat (autodetect_size P))%nat ->
    cell (lowmem_adj (lowmem_autodetect_oom_adj_values K C P)) i
    < cell (lowmem_adj (lowmem_autodetect_oom_adj_values K C P)) j.
Proof.
  intros Hlinux Hlo Hasc i j Hij.
  pose proof (autodetect_shape K C P) as Hshape. cbv zeta in Hshape.
  destruct Hshape as (_ & _ & _ & [[Hsame _]|(Hn & Hlast & _ & Hcells)]).
  - rewrite Hsame. apply Hasc. exact Hij.
  - rewrite !Hcells.
    destruct (Nat.ltb_spec i (Z.to_nat (autodetect_size P))); [|lia].
    destruct (Nat.ltb_spec j (Z.to_nat (autodetect_size P))); [|lia].
    pose proof Hlinux as (Hmax & _ & _). rewrite Hmax in Hlast.
    destruct (autodetect_size_last P Hn) as [Hidx _]. rewrite Hidx in Hlast.
    apply conv_strict; [exact Hlinux| |apply Hasc; exact Hij|].
    + destruct i as [|i]; [exact Hlo|].
      specialize (Hasc O (S i) ltac:(lia)). lia.
    + destruct (decide (j = Z.to_nat (autodetect_size P) - 1)%nat)
        as [->|Hne]; [exact Hlast|].
      specialize (Hasc j (Z.to_nat (autodetect_size P) - 1)%nat ltac:(lia)).
      lia.
Qed.

Lemma autodetect_keeps_order_witness :
  let P := table [0; 1; 6; 12] [1536; 2048; 4096; 16384] in
  cell (lowmem_adj (lowmem_autodetect_oom_adj_values K_plain C_linux P)) 1
  < cell (lowmem_adj (lowmem_autodetect_oom_adj_values K_plain C_linux P)) 3.
Proof.
  intros P.
  apply (autodetect_keeps_order K_plain C_linux P).
  - repeat split.
  - vm_compute. discriminate.
  - intros i j Hij.
    assert (Hj : (j < 4)%nat) by (vm_compute in Hij; lia).
    destruct i as [|[|[|[|i]]]], j as [|[|[|[|j]]]]; try lia; reflexivity.
  - vm_compute. lia.
Defined.

(** ** The autodetection and the lookup *)

Lemma zero_adj_count_ext (a a' : list Z) (i : nat) :
  (forall k : nat, (k < i)%nat -> (cell a' k =? 0) = (cell a k =? 0)) ->
  zero_adj_count a' i = zero_adj_count a i.
Proof.
  induction i as [|i IH]; intros Hsame; [reflexivity|].
  cbn [zero_adj_count]. rewrite IH by (intros k Hk; apply Hsame; lia).
  rewrite (Hsame i) by lia. reflexivity.
Qed.

(** Two tables of the same effective length whose entries are compared
    with the same thresholds and quantities fire at the same entry. *)
Lemma tier_walk_same_fire (K : kconfig) (P P' : lowmem_params)
    (vm : vmstat) :
  array_size P' = array_size P ->
  (forall j : nat, (j < Z.to_nat (array_size P))%nat ->
     cell (lowmem_minfree P') j = cell (lowmem_minfree P) j
     /\ eff_free K P' vm j = eff_free K P vm j) ->
  t_i (tier_walk K P' vm) = t_i (tier_walk K P vm)
  /\ ((t_i (tier_walk K P vm) < Z.to_nat (array_size P))%nat ->
      t_min_score_adj (tier_walk K P' vm)
      = cell (lowmem_adj P') (t_i (tier_walk K P vm))
      /\ t_min_score_adj (tier_walk K P vm)
         = cell (lowmem_adj P) (t_i (tier_walk K P vm)))
  /\ (t_i (tier_walk K P vm) = Z.to_nat (array_size P) ->
      t_min_score_adj (tier_walk K P' vm) = OOM_SCORE_ADJ_MAX K + 1
      /\ t_min_score_adj (tier_walk K P vm) = OOM_SCORE_ADJ_MAX K + 1).
Proof.
  intros Hsize Hsame. rewrite !tier_walk_run, Hsize.
  destruct (tier_run_first K P vm (Z.to_nat (array_size P)) _
              (tier_inv_init K P vm))
    as [(i & Hi & Hfire & Hbefore & Hri & _ & Hr)|(Hnone & Hri & Hr)];
    destruct (tier_run_first K P' vm (Z.to_nat (array_size P)) _
                (tier_inv_init K P' vm))
      as [(i' & Hi' & Hfire' & Hbefore' & Hri' & _ & Hr')
         |(Hnone' & Hri' & Hr')];
    cbn [t_i t_min_score_adj] in *; rewrite Hri, Hri', Hr, Hr'.
  - assert (i' = i) as ->.
    { destruct (Nat.lt_trichotomy i' i) as [Hlt|[Heq|Hgt]]; [|exact Heq|].
      - specialize (Hbefore i' ltac:(lia)).
        destruct (Hsame i' ltac:(lia)) as [Hm He]. lia.
      - specialize (Hbefore' i ltac:(lia)).
        destruct (Hsame i ltac:(lia)) as [Hm He]. lia. }
    split; [reflexivity|]. split; [auto|lia].
  - exfalso. specialize (Hnone' i ltac:(lia)).
    destruct (Hsame i ltac:(lia)) as [Hm He]. lia.
  - exfalso. specialize (Hnone i' ltac:(lia)).
    destruct (Hsame i' ltac:(lia)) as [Hm He]. lia.
  - split; [reflexivity|]. split; [lia|auto].
Qed.

(** X17.  The autodetection changes the scale of the cutoff, not the tier
    that fires: on the table it leaves, the walk stops at the same entry as
    on the table it was given, and the cutoff is the priority it left in
    that entry (or the sentinel when none fires).  Without the vendor
    policy this needs nothing; with it, the constants of the kernel header
    and priorities within [-557, 557], so that only 0 converts to 0. *)
Theorem autodetect_keeps_tier (K : kconfig) (C : oom_h) (P : lowmem_params)
    (vm : vmstat) :
  (CONFIG_MP_Android_MSTAR_ADJUST_LOW_MEM_KILLER_POLICY K = true ->
   linux_oom_h K C
   /\ forall j : nat, (j < Z.to_nat (autodetect_size P))%nat ->
                      -557 <= cell (lowmem_adj P) j <= 557) ->
  let P' := lowmem_autodetect_oom_adj_values K C P in
  t_i (tier_walk K P' vm) = t_i (tier_walk K P vm)
  /\ ((t_i (tier_walk K P vm) < Z.to_nat (array_size P))%nat ->
      t_min_score_adj (tier_walk K P' vm)
      = cell (lowmem_adj P') (t_i (tier_walk K P vm)))
  /\ (t_i (tier_walk K P vm) = Z.to_nat (array_size P) ->
      t_min_score_adj (tier_walk K P' vm) = OOM_SCORE_ADJ_MAX K + 1).
Proof.
  intros Hvendor P'.
  pose proof (autodetect_shape K C P) as Hshape. cbv zeta in Hshape.
  fold P' in Hshape.
  destruct Hshape as (Hmin & Hasz & Hmsz & Hshape).
  assert (Hsize : array_size P' = array_size P)
    by (unfold array_size; rewrite Hasz, Hmsz; reflexivity).
  assert (Hle : (Z.to_nat (array_size P) <= Z.to_nat (autodetect_size P))%nat).
  { rewrite array_size_min. unfold autodetect_size, ARRAY_SIZE_lowmem_adj.
    destruct (Z.ltb_spec (lowmem_adj_size P) 6); lia. }
  destruct (tier_walk_same_fire K P P' vm Hsize) as (Hi & Hfire & Hnone).
  - intros j Hj. rewrite Hmin. split; [reflexivity|].
    unfold eff_free.
    destruct (CONFIG_MP_Android_MSTAR_ADJUST_LOW_MEM_KILLER_POLICY K) eqn:HK;
      [|reflexivity].
    destruct (Hvendor eq_refl) as [Hlinux Hrange].
    rewrite (zero_adj_count_ext (lowmem_adj P) (lowmem_adj P')); [reflexivity|].
    intros k Hk.
    destruct Hshape as [[-> _]|(_ & _ & _ & Hcells)]; [reflexivity|].
    rewrite Hcells.
    destruct (Nat.ltb_spec k (Z.to_nat (autodetect_size P))); [|lia].
    specialize (Hrange k ltac:(lia)).
    rewrite (conv_linux K C _ Hlinux Hrange).
    destruct (Z.eqb_spec (cell (lowmem_adj P) k) 15) as [->|Hne];
      [reflexivity|].
    destruct (Z.eqb_spec (cell (lowmem_adj P) k) 0) as [->|Hnz];
      [reflexivity|].
    apply Z.eqb_neq. revert Hnz. Z.to_euclidean_division_equations. lia.
  - split; [exact Hi|]. split.
    + intros Hlt. exact (proj1 (Hfire Hlt)).
    + intros Heq. exact (proj1 (Hnone Heq)).
Qed.

(** The legacy table 0, 1, 6, 12 under the vendor policy and 3000 free
    pages: the third tier fires before and after, with cutoff 6 and 352. *)
Lemma autodetect_keeps_tier_witness :
  let P := table [0; 1; 6; 12] [1536; 2048; 4096; 16384] in
  let P' := lowmem_autodetect_oom_adj_values K_mstar C_linux P in
  t_i (tier_walk K_mstar P' (reading 3000 0)) = 2%nat
  /\ t_min_score_adj (tier_walk K_mstar P' (reading 3000 0)) = 352.
Proof.
  intros P P'. subst P'.
  destruct (autodetect_keeps_tier K_mstar C_linux P (reading 3000 0))
    as (Hi & Hfire & _).
  - intros _. split; [repeat split|].
    intros j Hj.
    assert (Hj4 : (j < 4)%nat) by (vm_compute in Hj; lia).
    destruct j as [|[|[|[|j]]]]; try lia; vm_compute; split; discriminate.
  - split.
    + etransitivity; [exact Hi|reflexivity].
    + etransitivity; [apply Hfire; vm_compute; lia|reflexivity].
Defined.
